(* ===== verification/_CoqProject ===== *)
-Q . S2P
Prelude.v
Cairo.v
SevenSegment.v
JsBuiltins.v
Rgba.v
ClockFace.v
Widget.v
Screen.v
