(* ===== verification/Prelude.v ===== *)
(** * A verification development of the lock-screen clock widget

    The program is one GJS class, [ModifiedClock] in
    [src/src/v-45-46-47-48-49/ModifiedClock.js].  It is a vertical box
    holding up to four children: a command-output label, the time (a
    text label, an analog face or an LED ring), a date label and a hint
    label.  It is driven by a 1-second GLib timeout, by the GnomeDesktop
    wall clock's [notify::clock] signal, by the seat's touch-mode
    signal, by the monitor manager's power-save signal and by an idle
    watch.  The analog face and the LED ring are painted with Cairo on
    an [St.DrawingArea]; the LED ring's centre is a seven-segment
    readout of the current time text; the colours of both come from a
    small [rgba(...)] parser.

    ** Files and what they model

    - [Prelude] (this file): the shared vocabulary.  JS strings are
      lists of code points ([jsstr]); JS numbers are exact rationals
      [Q], and the few places where the code can meet a non-finite
      value (parseFloat, isNaN, Cairo's colour clamp) use [jsnum], which
      adds NaN and the two infinities.  JS [%] on numbers, boolean
      comparisons on [Q], the notation scope [js_scope], the hint
      database [js] and the tactics shared by the components.
    - [Cairo]: the part of the Cairo API the painters call ([save],
      [restore], [translate], [setLineWidth], [setSourceRGBA], [arc],
      [moveTo], [lineTo], [rectangle], [stroke], [strokePreserve],
      [fill]) as a command language, and Cairo's own behaviour as a
      state machine over a graphics state, a save stack, the current
      path (kept in device space) and the list of paint operations
      emitted so far.  A painter is a function returning the command
      list it issues, and its meaning is [run] of that list.
    - [SevenSegment]: [_drawSevenSegmentText] (lines 466-560): the
      segment table, the metrics and their two scaling passes, the
      natural width fold with its [text.length - 1] spacing test, the
      scale-to-fit policy, the segment geometry of [drawSegment] and the
      glyph loop.
    - [JsBuiltins]: the JavaScript built-ins the code calls, written
      from the ECMAScript specification (not code of the repository): a
      backtracking continuation-passing regular-expression matcher for
      the constructs of [/rgba?\(([^)]+)\)/i], [split] at one
      character, [trim], [startsWith], [parseFloat] and the decimal
      printing of integers in template literals, and [parseInt] with
      its sign and [0x] prefix.
    - [Rgba]: [_parseRgba] (lines 562-579) on top of the built-ins.
    - [ClockFace]: the time decomposition shared by the painters (lines
      342-345, 409-412), [_paintAnalogClock] (335-400) and
      [_paintLedClock] (402-464) as Cairo command lists, over the
      type class [Trig] (sine and cosine in units of pi, with their
      bounds as laws); the instance [trig_bhaskara] is a rational
      approximation used only to run the painters on examples.
    - [Widget]: the class itself: the settings read by [_init], the CSS
      assembled for the four labels, the children [_init] adds and the
      diameter of the drawn clock, [_updateClock], [_updateHint],
      [_createCommandText], [destroy], and the callbacks registered in
      [_init].  The widget's fields form the record [widget]; every
      callback and [destroy()] is an [event] handled by the step
      function [handle], which runs a callback only while the
      registration that delivers it is live; [reachable] is the
      inductive closure of [init] under [handle].  The host's date
      formatting, its [Date] type and [Config.PACKAGE_VERSION] are
      parameters of a section; [SHELL_VERSION] is [parseInt] of the
      version's first word and selects the box and seat APIs.
    - [Screen]: the [repaint] handlers of the two drawing areas
      ([_createAnalogClock], [_createLedClock]), which run the painters
      of [ClockFace] on the state of [Widget]: the composition of the
      widget with its painters.

    ** How the parts interact

    [Widget.init] chooses the time child ([time_child]) whose drawing
    area [ClockFace.paintAnalogClock] or [ClockFace.paintLedClock]
    paints; the LED painter calls [SevenSegment.drawSevenSegmentText]
    with the text [Widget.updateClock] stored in [_currentTimeText];
    both painters read their colours through [Rgba.parseRgba]; all of
    them speak to the [Cairo] state machine; and [Screen.repaint] is
    the point where a widget state is painted.

    ** What the theorems show

    - [SevenSegment]: the scale-to-fit pass makes the text exactly as
      wide as the smaller of its natural width and the budget; digits
      are never taller than the target; the seven segment rectangles
      of a cell lie inside it and do not overlap; the glyph loop
      refines an abstract list of ink shapes ([glyph_ink]); BMP text is
      centred.  Three departures: any text with a character outside
      the BMP is drawn one spacing off centre ([text.length] counts
      UTF-16 units), colon dots overhang their cell, and unknown
      characters still take a blank cell.
    - [Rgba]: the parser is total and never yields NaN; it reads back
      every [rgb(...)]/[rgba(...)] string with integer components
      (round trip with [print_rgba]), so it does not clamp to [0, 1];
      it falls back per channel, mixing parsed and fallback channels.
    - [ClockFace]: hand values stay in range; one tick advances every
      hand by its exact step with a full turn only at the wraps; LED
      dot [i] is lit iff [i <= s], the minute and hour dots take their
      accent colour; both painters leave the Cairo graphics state, save stack and
      status as they found them.
    - [Widget]: every reachable state keeps the hint's invariant and
      shows the time in exactly the chosen way (label, analog area or
      LED area, each repainted on every live tick);
      [destroy] releases the timeout, the idle watch and the two
      [connectObject] handlers but not the wall clock's handler, which
      keeps calling [_updateClock] after teardown; a second [destroy]
      calls [remove_watch] again; the drawn clock's diameter comes from
      the hint font size; the children keep the shape [_init] gave
      them (one time variant); until [destroy] every tick refreshes the
      clock, whatever ran before; the version switch follows the
      version's major number.
    - [Screen]: in every reachable state, one repaint of the box runs
      exactly the painter of the area that exists (the LED one fed
      with [_currentTimeText]) and hands the Cairo context back as it
      got it.

    ** Numbers

    JS doubles are modelled by exact rationals: rounding is not
    modelled, so equalities proved here hold of the exact computation
    the code describes, and inequalities hold of doubles up to rounding.
    Division by zero in [Q] gives [0] where JS gives NaN or an
    infinity; every theorem that divides states the hypothesis that
    keeps the divisor non-zero (a positive target height, a positive
    natural width).  Angles are kept in units of pi ([Math.PI] times a
    rational), and sine and cosine are an interface ([Trig]) rather than
    a definition, since no rational function computes them exactly.

    ** Recursion, fuel and bounds

    No definition uses fuel: every loop of the code is a fold over a
    list (the glyph loop, the width fold, the sixty LED dots, the
    twelve hour ticks) and the matcher recurses on the regular
    expression and, for [+], on the remaining input.  Integers the
    code takes from the settings or the clock are [Z]; nothing in the
    modelled code can overflow a double's integer range.

    Not modelled: [execCommunicate] (a subprocess; the file that defines
    it is not among the sources; its settled promise is the event
    [EvCommandDone]), the host's date formatting
    ([formatDateWithCFormatString], [Shell.util_translate_time_string])
    which the model takes as parameters, the St/Clutter layout engine
    and actor tree beyond the list of children, the easing animation
    (only its target opacity is kept), the module imports and the two
    timing constants [HINT_TIMEOUT] and [CROSSFADE_TIME] (delays the
    event model abstracts away), floating-point rounding, and a failure
    part-way through [_init]. *)

From Stdlib Require Export QArith Qminmax Qround Lqa ZArith List String Ascii Bool Lia.
Export ListNotations.

Declare Scope js_scope.
Delimit Scope js_scope with js.
Open Scope Q_scope.

(** ** JS strings *)

(** A JS string as the sequence of its code points (a lone surrogate is
    kept as one element).  [js_length] is what [.length] returns: the
    number of UTF-16 code units. *)
Definition jsstr := list Z.

Definition utf16_units (cp : Z) : Z := if (65536 <=? cp)%Z then 2 else 1.

Definition js_length (s : jsstr) : Z :=
  fold_right (fun cp n => (utf16_units cp + n)%Z) 0%Z s.

(** Literals: an ASCII [string] read as its code points. *)
Fixpoint str (s : string) : jsstr :=
  match s with
  | EmptyString => []
  | String c rest => Z.of_N (Ascii.N_of_ascii c) :: str rest
  end.

Notation "'js:' s" := (str s%string) (at level 1, s at level 0) : js_scope.
Open Scope js_scope.

(** ** JS numbers with their non-finite values *)

Inductive jsnum : Type :=
| JFin (q : Q)
| JInf (neg : bool)
| JNaN.

Definition isNaN (v : jsnum) : bool :=
  match v with JNaN => true | _ => false end.

(** [v / d] and [v * d] for a positive constant [d]. *)
Definition jdiv_pos (v : jsnum) (d : Q) : jsnum :=
  match v with JFin q => JFin (q / d) | other => other end.

Definition jmul_pos (v : jsnum) (d : Q) : jsnum :=
  match v with JFin q => JFin (q * d) | other => other end.

(** The colour objects [{red, green, blue, alpha}] that [_parseRgba]
    returns and the painters read. *)
Record color : Type := mk_color { red : jsnum; green : jsnum; blue : jsnum; alpha : jsnum }.

(** Equality of JS numbers up to the representation of rationals, and
    of colours channel by channel. *)
Definition jsnum_eqv (u v : jsnum) : Prop :=
  match u, v with
  | JFin p, JFin q => p == q
  | JInf a, JInf b => a = b
  | JNaN, JNaN => True
  | _, _ => False
  end.

Definition color_eqv (c d : color) : Prop :=
  jsnum_eqv (red c) (red d) /\ jsnum_eqv (green c) (green d) /\
  jsnum_eqv (blue c) (blue d) /\ jsnum_eqv (alpha c) (alpha d).

Infix "=~" := jsnum_eqv (at level 70, no associativity) : js_scope.

(** ** Comparisons and the JS operators on numbers *)

Definition qltb (a b : Q) : bool := negb (Qle_bool b a).

Notation "a <? b" := (qltb a b) (at level 70, no associativity) : js_scope.
Notation "a <=? b" := (Qle_bool a b) (at level 70, no associativity) : js_scope.

(** [v >= q] for a JS number [v] and a finite [q]: false for NaN,
    decided by the sign for an infinity. *)
Definition jsge (v : jsnum) (q : Q) : bool :=
  match v with
  | JFin x => Qle_bool q x
  | JInf neg => negb neg
  | JNaN => false
  end.

(** [Math.trunc] and the JS remainder [a % b], whose sign is the sign
    of [a]. *)
Definition qtrunc (q : Q) : Z :=
  if Qle_bool 0 q then Qfloor q else (- Qfloor (- q))%Z.

Definition jsmod (a b : Q) : Q := a - b * inject_Z (qtrunc (a / b)).

(** ** Generic lemmas *)

#[export] Instance jsnum_eqv_equiv : Equivalence jsnum_eqv.
Proof.
  split.
  - intros [q|b|]; cbn; reflexivity.
  - intros [p|a|] [q|b|]; cbn; intros H; try contradiction; auto; symmetry; exact H.
  - intros [p|a|] [q|b|] [r|c|]; cbn; intros H1 H2; try contradiction; auto;
      etransitivity; eauto.
Qed.

#[export] Instance color_eqv_equiv : Equivalence color_eqv.
Proof.
  split.
  - intros c. repeat split; reflexivity.
  - intros c d (H1 & H2 & H3 & H4). repeat split; symmetry; assumption.
  - intros c d e (H1 & H2 & H3 & H4) (G1 & G2 & G3 & G4).
    repeat split; etransitivity; eauto.
Qed.

#[export] Instance JFin_proper : Proper (Qeq ==> jsnum_eqv) JFin.
Proof. intros p q H. exact H. Qed.

#[export] Instance jdiv_pos_proper : Proper (jsnum_eqv ==> Qeq ==> jsnum_eqv) jdiv_pos.
Proof.
  intros [p|a|] [q|b|] H d e Hd; cbn in *; try contradiction; auto.
  rewrite H, Hd. reflexivity.
Qed.

#[export] Instance jmul_pos_proper : Proper (jsnum_eqv ==> Qeq ==> jsnum_eqv) jmul_pos.
Proof.
  intros [p|a|] [q|b|] H d e Hd; cbn in *; try contradiction; auto.
  rewrite H, Hd. reflexivity.
Qed.

#[export] Instance isNaN_proper : Proper (jsnum_eqv ==> eq) isNaN.
Proof. intros [p|a|] [q|b|] H; cbn in *; try contradiction; reflexivity. Qed.

Lemma qltb_true (a b : Q) : qltb a b = true <-> a < b.
Proof.
  unfold qltb. rewrite negb_true_iff.
  split; intros H.
  - apply Qnot_le_lt. intros Hle. apply Qle_bool_iff in Hle. congruence.
  - destruct (Qle_bool b a) eqn:E; [|reflexivity].
    apply Qle_bool_iff in E. exfalso. apply (Qlt_not_le a b); assumption.
Qed.

Lemma qltb_false (a b : Q) : qltb a b = false <-> b <= a.
Proof.
  unfold qltb. rewrite negb_false_iff. apply Qle_bool_iff.
Qed.

Lemma Qle_bool_false (a b : Q) : Qle_bool a b = false <-> b < a.
Proof.
  split; intros H.
  - apply Qnot_le_lt. intros Hle. apply Qle_bool_iff in Hle. congruence.
  - destruct (Qle_bool a b) eqn:E; [|reflexivity].
    apply Qle_bool_iff in E. exfalso. apply (Qlt_not_le b a); assumption.
Qed.

Lemma Qle_bool_inject_Z (a b : Z) : Qle_bool (inject_Z a) (inject_Z b) = (a <=? b)%Z.
Proof.
  destruct (Z.leb_spec a b) as [H|H].
  - apply Qle_bool_iff. rewrite <- Zle_Qle. exact H.
  - apply Qle_bool_false. rewrite <- Zlt_Qlt. exact H.
Qed.

Lemma qtrunc_nonneg (q : Q) : 0 <= q -> qtrunc q = Qfloor q.
Proof.
  intros H. unfold qtrunc. apply Qle_bool_iff in H. rewrite H. reflexivity.
Qed.

(** On a non-negative dividend below the divisor, [%] is the identity. *)
Lemma jsmod_small (a b : Q) : 0 <= a -> a < b -> jsmod a b == a.
Proof.
  intros Ha Hb. unfold jsmod.
  assert (Hq : 0 <= a / b) by (apply Qle_shift_div_l; lra).
  rewrite qtrunc_nonneg by exact Hq.
  assert (Hf : Qfloor (a / b) = 0%Z).
  { apply Z.le_antisymm.
    - assert (Hlt : a / b < 1) by (apply Qlt_shift_div_r; lra).
      pose proof (Qfloor_le (a / b)) as Hle.
      assert (Hz : inject_Z (Qfloor (a / b)) < inject_Z 1) by (change (inject_Z 1) with 1; lra).
      rewrite <- Zlt_Qlt in Hz. lia.
    - change 0%Z with (Qfloor 0). apply Qfloor_resp_le. exact Hq. }
  rewrite Hf. change (inject_Z 0) with 0. lra.
Qed.

Lemma inject_Z_minus (x y : Z) : inject_Z (x - y) = inject_Z x - inject_Z y.
Proof. unfold Z.sub, Qminus. rewrite inject_Z_plus, inject_Z_opp. reflexivity. Qed.

(** [Math.floor] of an integer plus a fraction in [0, 1). *)
Lemma Qfloor_int_plus (n : Z) (f : Q) : 0 <= f -> f < 1 -> Qfloor (inject_Z n + f) = n.
Proof.
  intros H0 H1. apply Z.le_antisymm.
  - assert (Hlt : inject_Z (Qfloor (inject_Z n + f)) < inject_Z (n + 1)).
    { rewrite inject_Z_plus. pose proof (Qfloor_le (inject_Z n + f)).
      change (inject_Z 1) with 1. lra. }
    rewrite <- Zlt_Qlt in Hlt. lia.
  - rewrite <- (Qfloor_Z n) at 1. apply Qfloor_resp_le. lra.
Qed.

Lemma js_length_app (s t : jsstr) : js_length (s ++ t) = (js_length s + js_length t)%Z.
Proof.
  induction s as [|c s IH]; simpl; [reflexivity|]. rewrite IH. lia.
Qed.

Lemma utf16_units_pos (cp : Z) : (1 <= utf16_units cp <= 2)%Z.
Proof. unfold utf16_units. destruct (65536 <=? cp)%Z; lia. Qed.

Lemma js_length_ge (s : jsstr) : (Z.of_nat (List.length s) <= js_length s)%Z.
Proof.
  induction s as [|c s IH]; simpl; [lia|].
  pose proof (utf16_units_pos c). lia.
Qed.

(** ** Automation *)

Create HintDb js.
Create Rewrite HintDb js_rw.
#[export] Hint Rewrite qltb_true qltb_false Qle_bool_iff Qle_bool_false : js_rw.

(** Case on a boolean comparison of rationals, turning each branch's
    outcome into the proposition it decides. *)
Ltac case_qcmp :=
  match goal with
  | |- context [qltb ?a ?b] =>
      let E := fresh "Ecmp" in
      destruct (qltb a b) eqn:E;
      [apply qltb_true in E | apply qltb_false in E]
  | |- context [Qle_bool ?a ?b] =>
      let E := fresh "Ecmp" in
      destruct (Qle_bool a b) eqn:E;
      [apply Qle_bool_iff in E | apply Qle_bool_false in E]
  end.

(** Decide a comparison of closed rationals by evaluation. *)
(** Close [a = a] when both sides are the same term as written, without
    unfolding anything: a goal whose sides differ fails at once instead
    of being unfolded and computed. *)
Ltac syn_refl := lazymatch goal with |- ?a = ?a => reflexivity end.

Ltac qdec := vm_compute; first [reflexivity | intros ?; discriminate].

(** Replace [inject_Z] of integer literals by rational literals and
    division by a positive literal by multiplication with its inverse,
    which [lra] reads as constants. *)
Ltac q_consts :=
  repeat match goal with
  | |- context [inject_Z (Zpos ?p)] => change (inject_Z (Zpos p)) with (Zpos p # 1)
  | |- context [inject_Z (Zneg ?p)] => change (inject_Z (Zneg p)) with (Zneg p # 1)
  | |- context [inject_Z Z0] => change (inject_Z Z0) with (0 # 1)
  | H : context [inject_Z (Zpos ?p)] |- _ => change (inject_Z (Zpos p)) with (Zpos p # 1) in H
  | H : context [inject_Z (Zneg ?p)] |- _ => change (inject_Z (Zneg p)) with (Zneg p # 1) in H
  | H : context [inject_Z Z0] |- _ => change (inject_Z Z0) with (0 # 1) in H
  | |- context [?x / (Zpos ?p # 1)] => change (x / (Zpos p # 1)) with (x * (1 # p))
  | H : context [?x / (Zpos ?p # 1)] |- _ => change (x / (Zpos p # 1)) with (x * (1 # p)) in H
  end.

(** Push [inject_Z] through the ring operations of [Z]. *)
Ltac q_push :=
  repeat first [rewrite inject_Z_plus | rewrite inject_Z_minus | rewrite inject_Z_mult
               | rewrite inject_Z_opp];
  q_consts.
