(* ===== verification/Cairo.v ===== *)
(** The Cairo drawing context as the painters of [ModifiedClock.js] use
    it: the calls they make form the command type [cmd], a painter is
    the list of commands it issues, and [exec] gives each command the
    effect Cairo documents for it on a state made of the graphics state
    (source colour, line width, the translation of the user space), the
    [save] stack, the current path in device coordinates, the list of
    paint operations emitted so far, and Cairo's error status.  The
    file also proves that a bracket [save ... restore] around a balanced
    command list gives back the graphics state it started from. *)

From S2P Require Import Prelude.

Module Cairo.

(** ** Commands (the [cr.*] calls of the painters) *)

(** Arc angles are in units of pi: [Arc xc yc r 0 2] is
    [cr.arc(xc, yc, r, 0, 2 * Math.PI)]. *)
Inductive cmd : Type :=
| Save
| Restore
| Translate (tx ty : Q)
| SetLineWidth (w : Q)
| SetSourceRGBA (r g b a : jsnum)
| Arc (xc yc radius angle1 angle2 : Q)
| MoveTo (x y : Q)
| LineTo (x y : Q)
| Rectangle (x y w h : Q)
| Stroke
| StrokePreserve
| Fill.

(** ** Cairo's state *)

(** A path element as Cairo records it, in device coordinates. *)
Inductive pelem : Type :=
| PMoveTo (x y : Q)
| PLineTo (x y : Q)
| PArc (xc yc radius angle1 angle2 : Q)
| PRect (x y w h : Q).

Record gstate : Type := mk_gstate {
  source : color;
  line_width : Q;
  origin_x : Q;
  origin_y : Q }.

Inductive paint_kind : Type := PaintFill | PaintStroke.

(** One [fill] or [stroke]: what was painted, with which colour and
    line width. *)
Record paint : Type := mk_paint {
  kind : paint_kind;
  shape : list pelem;
  paint_color : color;
  width : Q }.

Record cstate : Type := mk_cstate {
  gs : gstate;
  saved : list gstate;
  path : list pelem;
  painted : list paint;
  ok : bool }.

(** A fresh context: opaque black, line width 2, identity transform. *)
Definition init_gstate : gstate :=
  mk_gstate (mk_color (JFin 0) (JFin 0) (JFin 0) (JFin 1)) 2 0 0.

Definition init_state : cstate := mk_cstate init_gstate [] [] [] true.

(** [_cairo_restrict_value (v, 0, 1)], applied by [cairo_set_source_rgba]
    to each component: below 0 gives 0, above 1 gives 1, and NaN, which
    compares false both ways, passes through. *)
Definition clamp01 (v : jsnum) : jsnum :=
  match v with
  | JFin q => if qltb q 0 then JFin 0 else if qltb 1 q then JFin 1 else JFin q
  | JInf true => JFin 0
  | JInf false => JFin 1
  | JNaN => JNaN
  end.

Definition with_gs (st : cstate) (g : gstate) : cstate :=
  mk_cstate g (saved st) (path st) (painted st) (ok st).

Definition with_path (st : cstate) (p : list pelem) : cstate :=
  mk_cstate (gs st) (saved st) p (painted st) (ok st).

Definition add_elem (st : cstate) (e : Q -> Q -> pelem) : cstate :=
  with_path st (path st ++ [e (origin_x (gs st)) (origin_y (gs st))]).

Definition emit (st : cstate) (k : paint_kind) (keep : bool) : cstate :=
  mk_cstate (gs st) (saved st) (if keep then path st else [])
    (painted st ++ [mk_paint k (path st) (source (gs st)) (line_width (gs st))])
    (ok st).

(** One command.  A context in an error state ignores every command;
    [restore] with an empty stack is Cairo's INVALID_RESTORE error; a
    negative line width is clamped to 0. *)
Definition exec (st : cstate) (c : cmd) : cstate :=
  if negb (ok st) then st else
  let g := gs st in
  match c with
  | Save => mk_cstate g (g :: saved st) (path st) (painted st) true
  | Restore =>
      match saved st with
      | [] => mk_cstate g [] (path st) (painted st) false
      | g' :: rest => mk_cstate g' rest (path st) (painted st) true
      end
  | Translate tx ty =>
      with_gs st (mk_gstate (source g) (line_width g) (origin_x g + tx) (origin_y g + ty))
  | SetLineWidth w =>
      with_gs st (mk_gstate (source g) (if qltb w 0 then 0 else w) (origin_x g) (origin_y g))
  | SetSourceRGBA r gr b a =>
      with_gs st (mk_gstate (mk_color (clamp01 r) (clamp01 gr) (clamp01 b) (clamp01 a))
                    (line_width g) (origin_x g) (origin_y g))
  | Arc xc yc rad a1 a2 => add_elem st (fun ox oy => PArc (xc + ox) (yc + oy) rad a1 a2)
  | MoveTo x y => add_elem st (fun ox oy => PMoveTo (x + ox) (y + oy))
  | LineTo x y => add_elem st (fun ox oy => PLineTo (x + ox) (y + oy))
  | Rectangle x y w h => add_elem st (fun ox oy => PRect (x + ox) (y + oy) w h)
  | Stroke => emit st PaintStroke false
  | StrokePreserve => emit st PaintStroke true
  | Fill => emit st PaintFill false
  end.

Definition run (cs : list cmd) (st : cstate) : cstate := fold_left exec cs st.

(** Depth of the [save] stack along a command list, [None] when a
    [restore] would find it empty. *)
Fixpoint depth_after (d : nat) (cs : list cmd) : option nat :=
  match cs with
  | [] => Some d
  | Save :: rest => depth_after (S d) rest
  | Restore :: rest => match d with O => None | S d' => depth_after d' rest end
  | _ :: rest => depth_after d rest
  end.

Definition balanced (cs : list cmd) : bool :=
  match depth_after O cs with Some O => true | _ => false end.

Definition is_stack_op (c : cmd) : bool :=
  match c with Save | Restore => true | _ => false end.

(** A command list that neither saves nor restores. *)
Definition no_stack (cs : list cmd) : bool := forallb (fun c => negb (is_stack_op c)) cs.

(** ** Lemmas *)

Lemma run_app (c1 c2 : list cmd) (st : cstate) :
  run (c1 ++ c2) st = run c2 (run c1 st).
Proof. unfold run. apply fold_left_app. Qed.

Lemma run_cons (c : cmd) (cs : list cmd) (st : cstate) :
  run (c :: cs) st = run cs (exec st c).
Proof. reflexivity. Qed.

Lemma run_failed (cs : list cmd) (st : cstate) :
  ok st = false -> run cs st = st.
Proof.
  revert st. induction cs as [|c cs IH]; intros st H; [reflexivity|].
  rewrite run_cons. assert (E : exec st c = st) by (unfold exec; rewrite H; reflexivity).
  rewrite E. apply IH, H.
Qed.

(** Commands other than [save] and [restore] leave the status and the
    stack alone. *)
Lemma exec_frame (st : cstate) (c : cmd) :
  is_stack_op c = false -> ok (exec st c) = ok st /\ saved (exec st c) = saved st.
Proof.
  intros H. unfold exec. destruct (ok st) eqn:Hok; [|auto].
  destruct c; try discriminate; simpl; rewrite ?Hok; auto.
Qed.

Lemma depth_after_frame (d : nat) (c : cmd) (cs : list cmd) :
  is_stack_op c = false -> depth_after d (c :: cs) = depth_after d cs.
Proof. destruct c; try discriminate; reflexivity. Qed.

Lemma no_stack_depth (cs : list cmd) : forall d, no_stack cs = true -> depth_after d cs = Some d.
Proof.
  induction cs as [|c cs IH]; intros d H; [reflexivity|].
  cbn in H. apply andb_prop in H as [Hc Hcs]. apply negb_true_iff in Hc.
  rewrite depth_after_frame by exact Hc. apply IH, Hcs.
Qed.

Lemma no_stack_balanced (cs : list cmd) : no_stack cs = true -> balanced cs = true.
Proof. intros H. unfold balanced. rewrite no_stack_depth by exact H. reflexivity. Qed.

Lemma no_stack_app (c1 c2 : list cmd) :
  no_stack c1 = true -> no_stack c2 = true -> no_stack (c1 ++ c2) = true.
Proof. unfold no_stack. intros H1 H2. rewrite forallb_app, H1, H2. reflexivity. Qed.

Lemma no_stack_flat_map {A : Type} (f : A -> list cmd) (l : list A) :
  (forall x, no_stack (f x) = true) -> no_stack (flat_map f l) = true.
Proof.
  intros H. induction l as [|x l IH]; [reflexivity|]. cbn [flat_map].
  apply no_stack_app; [apply H | exact IH].
Qed.

(** The stack discipline: from a stack whose top [d] entries are ours,
    a command list that never pops below them leaves [d'] entries of
    its own above the same base. *)
Lemma run_depth (cs : list cmd) : forall d d' st pre base,
  ok st = true -> saved st = pre ++ base -> List.length pre = d ->
  depth_after d cs = Some d' ->
  ok (run cs st) = true /\
  exists pre', saved (run cs st) = pre' ++ base /\ List.length pre' = d'.
Proof.
  induction cs as [|c cs IH]; intros d d' st pre base Hok Hs Hl Hd.
  - simpl in Hd. injection Hd as <-. eauto.
  - rewrite run_cons. destruct (is_stack_op c) eqn:Hc.
    + destruct c; try discriminate; simpl in Hd; unfold exec; rewrite Hok; simpl.
      * eapply (IH (S d) d' _ (gs st :: pre) base); simpl; auto. congruence.
      * destruct d as [|d]; [discriminate|].
        destruct pre as [|g pre]; [discriminate|].
        rewrite Hs. simpl. eapply (IH d d' _ pre base); simpl; auto.
    + rewrite depth_after_frame in Hd by exact Hc.
      destruct (exec_frame st c Hc) as [Ho Hsv].
      eapply (IH d d' _ pre base); [congruence | congruence | exact Hl | exact Hd].
Qed.

(** A painter wrapped in [save ... restore] whose body is balanced
    hands back the graphics state and the save stack it was given. *)
Lemma save_restore_bracket (body : list cmd) (st : cstate) :
  ok st = true -> balanced body = true ->
  let st' := run ([Save] ++ body ++ [Restore]) st in
  ok st' = true /\ gs st' = gs st /\ saved st' = saved st.
Proof.
  intros Hok Hb. unfold balanced in Hb.
  destruct (depth_after O body) as [[|k]|] eqn:Hd; try discriminate.
  cbv zeta. rewrite run_app, run_app.
  assert (H0 : run [Save] st = mk_cstate (gs st) (gs st :: saved st) (path st) (painted st) true)
    by (unfold run; simpl; unfold exec; rewrite Hok; reflexivity).
  rewrite H0.
  destruct (run_depth body O O (mk_cstate (gs st) (gs st :: saved st) (path st) (painted st) true)
             [] (gs st :: saved st) eq_refl eq_refl eq_refl Hd)
    as [Hok' [pre' [Hs' Hl']]].
  destruct pre'; [|discriminate]. simpl in Hs'.
  set (st1 := run body _) in *.
  change (run [Restore] st1) with (exec st1 Restore).
  unfold exec. rewrite Hok', Hs'. simpl. auto.
Qed.

End Cairo.
