(* ===== verification/SevenSegment.v ===== *)
(** The seven-segment readout of the LED clock,
    [_drawSevenSegmentText] (ModifiedClock.js, lines 466-560): the
    segment table, the metrics derived from the target height, the
    natural width of a text, the scale-to-fit pass, the geometry of each
    segment ([drawSegment]) and the glyph loop that issues the Cairo
    commands.  The theorems show that the fitted text is never wider
    than the budget, that a digit is exactly as tall as the target, that
    the seven segments tile the digit cell without overlapping, how
    characters outside the table are treated, that the command list paints exactly the abstract ink
    [glyph_ink], and where the layout fails to centre or to contain its
    ink. *)

From S2P Require Import Prelude Cairo.
Import Cairo.

Module SevenSegment.

(** ** Data *)

(** The segment ids ['a'] .. ['g']. *)
Inductive segment : Type := SegA | SegB | SegC | SegD | SegE | SegF | SegG.

Definition segment_eqb (s1 s2 : segment) : bool :=
  match s1, s2 with
  | SegA, SegA | SegB, SegB | SegC, SegC | SegD, SegD
  | SegE, SegE | SegF, SegF | SegG, SegG => true
  | _, _ => false
  end.

Definition all_segments : list segment := [SegA; SegB; SegC; SegD; SegE; SegF; SegG].

Definition code_colon : Z := 58.

(** The object literal [segments], keyed by the one-character strings
    ['0'] .. ['9'] (code points 48 .. 57), in the source's order. *)
Definition segments_table : list (Z * list segment) :=
  [(48, [SegA; SegB; SegC; SegD; SegE; SegF]);
   (49, [SegB; SegC]);
   (50, [SegA; SegB; SegG; SegE; SegD]);
   (51, [SegA; SegB; SegC; SegD; SegG]);
   (52, [SegF; SegG; SegB; SegC]);
   (53, [SegA; SegF; SegG; SegC; SegD]);
   (54, [SegA; SegF; SegG; SegC; SegD; SegE]);
   (55, [SegA; SegB; SegC]);
   (56, [SegA; SegB; SegC; SegD; SegE; SegF; SegG]);
   (57, [SegA; SegB; SegC; SegD; SegF; SegG])]%Z.

Fixpoint lookup_segments (ch : Z) (tbl : list (Z * list segment)) : option (list segment) :=
  match tbl with
  | [] => None
  | (k, v) :: rest => if Z.eqb k ch then Some v else lookup_segments ch rest
  end.

(** [segments[ch] || []]. *)
Definition segs (ch : Z) : list segment :=
  match lookup_segments ch segments_table with Some l => l | None => [] end.

(** ** Metrics *)

Record metrics : Type := mk_metrics {
  thickness : Q;
  seg_length : Q;
  digitHeight : Q;
  digitWidth : Q;
  spacing : Q;
  colonWidth : Q }.

(** Lines 480-489: the metrics before the width pass, scaled once so
    that a digit is [targetHeight] tall. *)
Definition natural_metrics (targetHeight : Q) : metrics :=
  let thickness0 := targetHeight * (8 # 100) in
  let length0 := targetHeight * (3 # 10) in
  let digitHeight0 := 2 * length0 + 3 * thickness0 in
  let scaleH := targetHeight / digitHeight0 in
  let thickness1 := thickness0 * scaleH in
  let length1 := length0 * scaleH in
  mk_metrics thickness1 length1 (2 * length1 + 3 * thickness1)
    (length1 + 2 * thickness1) (thickness1 * (14 # 10)) (thickness1 * (8 # 10)).

Definition glyph_width (m : metrics) (ch : Z) : Q :=
  if Z.eqb ch code_colon then colonWidth m else digitWidth m.

(** The [reduce] of lines 491-495 and 507-511: [idx] is the index in
    [Array.from(text)] (code points) while [len] is [text.length]
    (UTF-16 units). *)
Fixpoint width_acc (m : metrics) (len idx : Z) (sum : Q) (text : jsstr) : Q :=
  match text with
  | [] => sum
  | ch :: rest =>
      width_acc m len (idx + 1)
        (sum + glyph_width m ch + (if (idx <? len - 1)%Z then spacing m else 0)) rest
  end.

Definition total_width (m : metrics) (text : jsstr) : Q :=
  width_acc m (js_length text) 0 0 text.

(** Lines 497-498. *)
Definition fit_scale (totalWidth maxWidth : Q) : Q :=
  let scaleW := if qltb maxWidth totalWidth then maxWidth / totalWidth else 1 in
  Qmin 1 scaleW.

(** Lines 500-505. *)
Definition scale_metrics (m : metrics) (s : Q) : metrics :=
  mk_metrics (thickness m * s) (seg_length m * s) (digitHeight m * s)
    (digitWidth m * s) (spacing m * s) (colonWidth m * s).

Definition fitted_metrics (text : jsstr) (maxWidth targetHeight : Q) : metrics :=
  let m0 := natural_metrics targetHeight in
  scale_metrics m0 (fit_scale (total_width m0 text) maxWidth).

(** ** Drawing *)

(** A rectangle [(x, y, w, h)]. *)
Record box : Type := mk_box { bx : Q; by_ : Q; bw : Q; bh : Q }.

(** [drawSegment(id)], lines 514-538. *)
Definition segment_box (m : metrics) (x y : Q) (id : segment) : box :=
  let t := thickness m in
  let l := seg_length m in
  match id with
  | SegA => mk_box (x + t) y l t
  | SegB => mk_box (x + t + l) (y + t) t l
  | SegC => mk_box (x + t + l) (y + 2 * t + l) t l
  | SegD => mk_box (x + t) (y + 2 * l + 2 * t) l t
  | SegE => mk_box x (y + 2 * t + l) t l
  | SegF => mk_box x (y + t) t l
  | SegG => mk_box (x + t) (y + l + t) l t
  end.

Definition box_cmd (b : box) : cmd := Rectangle (bx b) (by_ b) (bw b) (bh b).

(** The centres and radius of the two colon dots, lines 543-546. *)
Definition colon_dot_radius (m : metrics) : Q := thickness m * (7 # 10).
Definition colon_dot_x (m : metrics) (x : Q) : Q := x + colonWidth m / 2.
Definition colon_dot_y1 (m : metrics) (y : Q) : Q :=
  y + thickness m * (12 # 10) + seg_length m * (6 # 10).
Definition colon_dot_y2 (m : metrics) (y : Q) : Q :=
  y + digitHeight m - (thickness m * (12 # 10) + seg_length m * (6 # 10)).

(** The loop of lines 541-559. *)
Fixpoint draw_glyphs (m : metrics) (y x : Q) (text : jsstr) : list cmd :=
  match text with
  | [] => []
  | ch :: rest =>
      if Z.eqb ch code_colon then
        [Arc (colon_dot_x m x) (colon_dot_y1 m y) (colon_dot_radius m) 0 2; Fill;
         Arc (colon_dot_x m x) (colon_dot_y2 m y) (colon_dot_radius m) 0 2; Fill]
        ++ draw_glyphs m y (x + colonWidth m + spacing m) rest
      else
        flat_map (fun id => [Rectangle 0 0 0 0; box_cmd (segment_box m x y id); Fill]) (segs ch)
        ++ draw_glyphs m y (x + digitWidth m + spacing m) rest
  end.

(** The whole function: the metrics, the starting point (lines
    507-512), the source colour (line 540) and the loop. *)
Definition drawSevenSegmentText (text : jsstr) (maxWidth targetHeight : Q) (c : color)
  : list cmd :=
  let m := fitted_metrics text maxWidth targetHeight in
  let x := - total_width m text / 2 in
  let y := - digitHeight m / 2 in
  SetSourceRGBA (red c) (green c) (blue c) (JFin (9 # 10)) :: draw_glyphs m y x text.

(** ** Invariants and abstract descriptions *)

Definition metrics_nonneg (m : metrics) : Prop :=
  0 <= thickness m /\ 0 <= seg_length m /\ 0 <= digitHeight m /\
  0 <= digitWidth m /\ 0 <= spacing m /\ 0 <= colonWidth m.

(** The relations lines 482-489 set up between the six metrics; every
    later scaling keeps them. *)
Definition metrics_wf (m : metrics) : Prop :=
  0 <= thickness m /\ 0 <= seg_length m /\
  digitHeight m == 2 * seg_length m + 3 * thickness m /\
  digitWidth m == seg_length m + 2 * thickness m /\
  spacing m == thickness m * (14 # 10) /\
  colonWidth m == thickness m * (8 # 10).

Definition box_inside (b : box) (x y w h : Q) : Prop :=
  x <= bx b /\ bx b + bw b <= x + w /\ y <= by_ b /\ by_ b + bh b <= y + h.

(** Two rectangles whose interiors do not meet. *)
Definition boxes_disjoint (b1 b2 : box) : Prop :=
  bx b1 + bw b1 <= bx b2 \/ bx b2 + bw b2 <= bx b1 \/
  by_ b1 + bh b1 <= by_ b2 \/ by_ b2 + bh b2 <= by_ b1.

Definition digit_codes : list Z := [48; 49; 50; 51; 52; 53; 54; 55; 56; 57]%Z.

(** The set of segments a glyph lights, as seven flags [a] .. [g]. *)
Definition lit (l : list segment) : list bool :=
  map (fun s => existsb (segment_eqb s) l) all_segments.

(** The abstract ink of a text: one rectangle per lit segment, two
    discs per colon, in drawing order. *)
Inductive ink : Type :=
| InkRect (b : box)
| InkDisc (cx cy r : Q).

Fixpoint glyph_ink (m : metrics) (y x : Q) (text : jsstr) : list ink :=
  match text with
  | [] => []
  | ch :: rest =>
      if Z.eqb ch code_colon then
        [InkDisc (colon_dot_x m x) (colon_dot_y1 m y) (colon_dot_radius m);
         InkDisc (colon_dot_x m x) (colon_dot_y2 m y) (colon_dot_radius m)]
        ++ glyph_ink m y (x + colonWidth m + spacing m) rest
      else map (fun id => InkRect (segment_box m x y id)) (segs ch)
           ++ glyph_ink m y (x + digitWidth m + spacing m) rest
  end.

(** The path Cairo fills for one piece of ink under the translation
    [(ox, oy)]; a segment's path starts with the empty rectangle that
    [cr.rectangle(0, 0, 0, 0)] adds. *)
Definition ink_path (ox oy : Q) (i : ink) : list pelem :=
  match i with
  | InkRect b => [PRect (0 + ox) (0 + oy) 0 0; PRect (bx b + ox) (by_ b + oy) (bw b) (bh b)]
  | InkDisc cx cy r => [PArc (cx + ox) (cy + oy) r 0 2]
  end.

Definition ink_paint (g : gstate) (i : ink) : paint :=
  mk_paint PaintFill (ink_path (origin_x g) (origin_y g) i) (source g) (line_width g).

(** How far the loop moves [x]: one glyph and one spacing per
    character, the last included (line 548 and line 558). *)
Fixpoint advance (m : metrics) (text : jsstr) : Q :=
  match text with
  | [] => 0
  | ch :: rest => glyph_width m ch + spacing m + advance m rest
  end.

(** ** The width fold *)

(** The fold respects equality of rationals in its accumulator. *)
#[export] Instance width_acc_proper (m : metrics) (len idx : Z) :
  Proper (Qeq ==> eq ==> Qeq) (width_acc m len idx).
Proof.
  intros s1 s2 Hs t t' <-. revert idx s1 s2 Hs.
  induction t as [|ch t IH]; intros idx s1 s2 Hs; cbn [width_acc]; [exact Hs|].
  apply IH. rewrite Hs. reflexivity.
Qed.

Lemma width_acc_shift (m : metrics) (len : Z) (text : jsstr) : forall idx sum,
  width_acc m len idx sum text == sum + width_acc m len idx 0 text.
Proof.
  induction text as [|ch t IH]; intros idx sum; cbn [width_acc]; [ring|].
  rewrite (IH _ (sum + _ + _)), (IH _ (0 + _ + _)). ring.
Qed.

(** Scaling every metric scales the natural width by the same factor. *)
Lemma width_acc_scale (m : metrics) (s : Q) (len : Z) (text : jsstr) : forall idx sum,
  width_acc (scale_metrics m s) len idx (s * sum) text == s * width_acc m len idx sum text.
Proof.
  induction text as [|ch t IH]; intros idx sum; cbn [width_acc]; [reflexivity|].
  rewrite <- IH. apply width_acc_proper; [|reflexivity].
  unfold glyph_width; destruct (ch =? code_colon)%Z, (idx <? len - 1)%Z; cbn [scale_metrics colonWidth digitWidth spacing]; ring.
Qed.

Lemma total_width_scale (m : metrics) (s : Q) (text : jsstr) :
  total_width (scale_metrics m s) text == s * total_width m text.
Proof.
  unfold total_width. rewrite <- width_acc_scale.
  apply width_acc_proper; [ring | reflexivity].
Qed.

Lemma width_acc_ge (m : metrics) (len : Z) (text : jsstr) : metrics_nonneg m ->
  forall idx sum, sum <= width_acc m len idx sum text.
Proof.
  intros (Ht & Hl & Hh & Hw & Hs & Hc).
  induction text as [|ch t IH]; intros idx sum; cbn [width_acc]; [apply Qle_refl|].
  eapply Qle_trans; [|apply IH].
  unfold glyph_width; destruct (ch =? code_colon)%Z, (idx <? len - 1)%Z; lra.
Qed.

(** The closed form of the metrics: the first pass makes a digit
    exactly [targetHeight] tall, whatever the two constants. *)
Lemma natural_metrics_closed (th : Q) : 0 < th ->
  let m := natural_metrics th in
  thickness m == th * (2 # 21) /\ seg_length m == th * (5 # 14) /\
  digitHeight m == th /\ digitWidth m == th * (23 # 42) /\
  spacing m == th * (2 # 15) /\ colonWidth m == th * (8 # 105).
Proof.
  intros H. unfold natural_metrics. cbn.
  repeat split; field; intros E; lra.
Qed.

Lemma natural_metrics_nonneg (th : Q) : 0 < th -> metrics_nonneg (natural_metrics th).
Proof.
  intros H. destruct (natural_metrics_closed th H) as (Ht & Hl & Hh & Hw & Hs & Hc).
  unfold metrics_nonneg. rewrite Ht, Hl, Hh, Hw, Hs, Hc. repeat split; lra.
Qed.

Lemma total_width_nonneg (th : Q) (text : jsstr) : 0 < th ->
  0 <= total_width (natural_metrics th) text.
Proof.
  intros H. apply (width_acc_ge _ _ _ (natural_metrics_nonneg th H)).
Qed.

(** The factor chosen by lines 497-498, on both branches. *)
Lemma fit_scale_spec (W maxWidth : Q) : 0 <= maxWidth -> 0 <= W ->
  (W <= maxWidth /\ fit_scale W maxWidth == 1) \/
  (maxWidth < W /\ fit_scale W maxWidth == maxWidth / W).
Proof.
  intros Hm HW. unfold fit_scale. case_qcmp.
  - right. split; [exact Ecmp|]. apply Q.min_r.
    apply Qle_shift_div_r; lra.
  - left. split; [exact Ecmp|]. apply Q.min_id.
Qed.

(** ** The metrics invariant *)

Lemma natural_metrics_wf (th : Q) : 0 < th -> metrics_wf (natural_metrics th).
Proof.
  intros H. destruct (natural_metrics_closed th H) as (Ht & Hl & Hh & Hw & Hs & Hc).
  unfold metrics_wf. rewrite Ht, Hl, Hh, Hw, Hs, Hc. repeat split; lra.
Qed.

Lemma scale_metrics_wf (m : metrics) (s : Q) :
  0 <= s -> metrics_wf m -> metrics_wf (scale_metrics m s).
Proof.
  intros Hs (Ht & Hl & Hh & Hw & Hsp & Hc). unfold metrics_wf; cbn.
  rewrite Hh, Hw, Hsp, Hc. repeat split; try ring; apply Qmult_le_0_compat; assumption.
Qed.

Lemma fit_scale_range (W maxWidth : Q) : 0 <= maxWidth -> 0 <= W ->
  0 <= fit_scale W maxWidth <= 1.
Proof.
  intros Hm HW. destruct (fit_scale_spec W maxWidth Hm HW) as [[_ Hs] | [Hlt Hs]];
    rewrite Hs; [lra|]. split.
  - apply Qle_shift_div_l; lra.
  - apply Qle_shift_div_r; lra.
Qed.

Lemma fitted_metrics_wf (text : jsstr) (maxWidth th : Q) :
  0 <= maxWidth -> 0 < th -> metrics_wf (fitted_metrics text maxWidth th).
Proof.
  intros Hm Ht. apply scale_metrics_wf; [|apply natural_metrics_wf, Ht].
  apply fit_scale_range; [exact Hm | apply total_width_nonneg, Ht].
Qed.

(** ** Scale to fit *)

(** C1: after the width pass the text is exactly as wide as the smaller
    of its natural width and the budget: it never exceeds the budget,
    and a text that fits is not shrunk. *)
Theorem fitted_width_is_min (text : jsstr) (maxWidth targetHeight : Q) :
  0 <= maxWidth -> 0 < targetHeight ->
  total_width (fitted_metrics text maxWidth targetHeight) text
  == Qmin (total_width (natural_metrics targetHeight) text) maxWidth.
Proof.
  intros Hm Ht. unfold fitted_metrics. rewrite total_width_scale.
  pose proof (total_width_nonneg targetHeight text Ht) as HW.
  set (W := total_width (natural_metrics targetHeight) text) in *.
  destruct (fit_scale_spec W maxWidth Hm HW) as [[Hle Hs] | [Hlt Hs]]; rewrite Hs.
  - rewrite Q.min_l by exact Hle. ring.
  - rewrite Q.min_r by lra. field. intros E; lra.
Qed.

(** C17: a digit is never taller than the target height, and exactly as
    tall when the text fits the budget. *)
Theorem fitted_height (text : jsstr) (maxWidth targetHeight : Q) :
  0 <= maxWidth -> 0 < targetHeight ->
  digitHeight (fitted_metrics text maxWidth targetHeight) <= targetHeight /\
  (total_width (natural_metrics targetHeight) text <= maxWidth ->
   digitHeight (fitted_metrics text maxWidth targetHeight) == targetHeight).
Proof.
  intros Hm Ht. unfold fitted_metrics. cbn [scale_metrics digitHeight].
  destruct (natural_metrics_closed targetHeight Ht) as (_ & _ & Hh & _).
  pose proof (total_width_nonneg targetHeight text Ht) as HW.
  set (W := total_width (natural_metrics targetHeight) text) in *.
  pose proof (fit_scale_range W maxWidth Hm HW) as [H0 H1].
  rewrite Hh. split.
  - rewrite <- (Qmult_1_r targetHeight) at 2. apply Qmult_le_l; lra.
  - intros Hle. destruct (fit_scale_spec W maxWidth Hm HW) as [[_ Hs] | [Hlt _]];
      [rewrite Hs; ring | lra].
Qed.

(** ** Segment geometry *)

(** C18: for well-formed metrics, each of the seven rectangles of
    [drawSegment] lies inside the digit cell at [(x, y)], and no two of
    them overlap. *)
Theorem segments_tile_cell (m : metrics) (x y : Q) : metrics_wf m ->
  (forall id, box_inside (segment_box m x y id) x y (digitWidth m) (digitHeight m)) /\
  (forall id1 id2, id1 <> id2 ->
     boxes_disjoint (segment_box m x y id1) (segment_box m x y id2)).
Proof.
  intros (Ht & Hl & Hh & Hw & _). split.
  - intros id. unfold box_inside. rewrite Hh, Hw.
    destruct id; cbn; repeat split; lra.
  - intros id1 id2 Hne. unfold boxes_disjoint.
    destruct id1, id2; try congruence; cbn; lra.
Qed.

(** ** The segment table *)

(** C19: a character that is neither a digit nor a colon draws nothing
    but still takes a full digit cell and a spacing. *)
Theorem unknown_char_blank_cell (m : metrics) (y x : Q) (ch : Z) (rest : jsstr) :
  ~ In ch digit_codes -> ch <> code_colon ->
  draw_glyphs m y x (ch :: rest) = draw_glyphs m y (x + digitWidth m + spacing m) rest /\
  glyph_width m ch = digitWidth m.
Proof.
  intros Hd Hc. assert (Hs : segs ch = []).
  { unfold segs. cbn [lookup_segments segments_table].
    repeat match goal with
           | |- context [Z.eqb ?k ch] =>
               destruct (Z.eqb_spec k ch) as [<- | _]; [exfalso; apply Hd; cbn; tauto |]
           end. reflexivity. }
  unfold glyph_width. cbn [draw_glyphs].
  apply Z.eqb_neq in Hc. rewrite Hc, Hs. split; reflexivity.
Qed.

(** ** What the glyph loop paints *)

Lemma run_segments (m : metrics) (x y : Q) (ids : list segment) : forall g sv pt,
  run (flat_map (fun id => [Rectangle 0 0 0 0; box_cmd (segment_box m x y id); Fill]) ids)
      (mk_cstate g sv [] pt true) =
  mk_cstate g sv [] (pt ++ map (fun id => ink_paint g (InkRect (segment_box m x y id))) ids) true.
Proof.
  induction ids as [|id ids IH]; intros g sv pt; cbn [flat_map map].
  - rewrite app_nil_r. reflexivity.
  - rewrite run_app.
    assert (E : run [Rectangle 0 0 0 0; box_cmd (segment_box m x y id); Fill]
                    (mk_cstate g sv [] pt true) =
                mk_cstate g sv [] (pt ++ [ink_paint g (InkRect (segment_box m x y id))]) true)
      by reflexivity.
    rewrite E, IH, <- app_assoc. reflexivity.
Qed.

(** C2: refinement of the glyph loop.  Run on a context with an empty
    path, the commands of [draw_glyphs] fill exactly the ink of
    [glyph_ink], each piece as a path of its own, and leave the
    graphics state, the stack and the (empty) path as they found them. *)
Theorem draw_glyphs_refines (m : metrics) (y : Q) (text : jsstr) : forall x st,
  ok st = true -> path st = [] ->
  run (draw_glyphs m y x text) st =
  mk_cstate (gs st) (saved st) []
    (painted st ++ map (ink_paint (gs st)) (glyph_ink m y x text)) true.
Proof.
  induction text as [|ch text IH]; intros x [g sv p pt o] Hok Hp;
    cbn in Hok, Hp; subst o p; cbn [draw_glyphs glyph_ink].
  - rewrite app_nil_r. reflexivity.
  - destruct (ch =? code_colon)%Z; rewrite run_app.
    + rewrite IH by reflexivity. cbn. rewrite <- !app_assoc. reflexivity.
    + rewrite run_segments, IH by reflexivity. cbn.
      rewrite map_app, map_map, app_assoc. reflexivity.
Qed.

(** ** Centring *)

(** When [text.length] counts the characters the fold visits, the
    natural width is the advance without the last spacing. *)
Lemma width_acc_advance (m : metrics) (text : jsstr) : forall idx sum,
  text <> [] ->
  width_acc m (idx + Z.of_nat (List.length text)) idx sum text
  == sum + advance m text - spacing m.
Proof.
  induction text as [|ch rest IH]; intros idx sum Hne; [congruence|].
  change (advance m (ch :: rest)) with (glyph_width m ch + spacing m + advance m rest).
  change (width_acc m ?len idx sum (ch :: rest)) with
    (width_acc m len (idx + 1) (sum + glyph_width m ch +
       (if (idx <? len - 1)%Z then spacing m else 0)) rest).
  replace (idx + Z.of_nat (List.length (ch :: rest)))%Z
    with (idx + 1 + Z.of_nat (List.length rest))%Z by (cbn [List.length]; lia).
  destruct rest as [|ch' rest'].
  - replace (idx <? idx + 1 + Z.of_nat (List.length (@nil Z)) - 1)%Z with false
      by (symmetry; apply Z.ltb_ge; cbn; lia).
    cbn [width_acc advance]. ring.
  - replace (idx <? idx + 1 + Z.of_nat (List.length (ch' :: rest')) - 1)%Z with true
      by (symmetry; apply Z.ltb_lt; cbn [List.length]; lia).
    rewrite IH by discriminate. ring.
Qed.

(** C20: a text whose characters are all in the Basic Multilingual
    Plane is centred: the last glyph cell ends as far right of 0 as the
    first one starts left of it. *)
Theorem layout_centred (text : jsstr) (maxWidth targetHeight : Q) :
  js_length text = Z.of_nat (List.length text) -> text <> [] ->
  let m := fitted_metrics text maxWidth targetHeight in
  let x := - total_width m text / 2 in
  x + advance m text - spacing m == - x.
Proof.
  intros Hlen Hne m x. subst x. unfold total_width. rewrite Hlen.
  rewrite <- (Z.add_0_l (Z.of_nat _)), width_acc_advance by exact Hne.
  field.
Qed.

(** When [text.length] exceeds the number of code points, every glyph,
    the last included, is followed by a spacing. *)
Lemma width_acc_all_spaced (m : metrics) (len : Z) (text : jsstr) : forall idx sum,
  (idx + Z.of_nat (List.length text) < len)%Z ->
  width_acc m len idx sum text == sum + advance m text.
Proof.
  induction text as [|ch rest IH]; intros idx sum Hlt; cbn [width_acc advance]; [ring|].
  cbn [List.length] in Hlt.
  replace (idx <? len - 1)%Z with true by (symmetry; apply Z.ltb_lt; lia).
  rewrite IH by lia. ring.
Qed.

Lemma fitted_spacing_pos (text : jsstr) (maxWidth th : Q) :
  0 < maxWidth -> 0 < th -> 0 < spacing (fitted_metrics text maxWidth th).
Proof.
  intros Hm Ht. unfold fitted_metrics. cbn [scale_metrics spacing].
  destruct (natural_metrics_closed th Ht) as (_ & _ & _ & _ & Hs & _). rewrite Hs.
  pose proof (total_width_nonneg th text Ht) as HW.
  destruct (fit_scale_spec (total_width (natural_metrics th) text) maxWidth ltac:(lra) HW)
    as [[_ E] | [Hlt E]]; rewrite E.
  - lra.
  - apply Qmult_lt_0_compat; [lra|]. apply Qlt_shift_div_l; lra.
Qed.

(** C21: [text.length] counts UTF-16 units while the fold counts code
    points, so in any text with a character outside the Basic
    Multilingual Plane (an emoji in [custom-time-text], say) the last
    glyph gets a trailing spacing: the ink ends one spacing short of
    where centring puts it, and that spacing is positive whenever the
    budget and the target height are. *)
Theorem astral_text_off_centre (text : jsstr) (maxWidth targetHeight : Q) :
  (Z.of_nat (List.length text) < js_length text)%Z ->
  let m := fitted_metrics text maxWidth targetHeight in
  let x := - total_width m text / 2 in
  x + advance m text - spacing m == - x - spacing m /\
  (0 < maxWidth -> 0 < targetHeight -> 0 < spacing m).
Proof.
  intros Hlen m x. split; [|apply fitted_spacing_pos].
  unfold x, total_width. rewrite width_acc_all_spaced by lia. field.
Qed.

(** C22: each colon dot overhangs the colon's cell by three tenths of
    the stroke thickness on both sides (radius [0.7 t] against a half
    cell of [0.4 t]), so a colon at either end of the text puts ink
    outside the fitted width. *)
Theorem colon_dot_overhang (m : metrics) (x : Q) : metrics_wf m ->
  colon_dot_x m x - colon_dot_radius m == x - thickness m * (3 # 10) /\
  colon_dot_x m x + colon_dot_radius m == x + colonWidth m + thickness m * (3 # 10).
Proof.
  intros (_ & _ & _ & _ & _ & Hc). unfold colon_dot_x, colon_dot_radius.
  rewrite Hc. split; field.
Qed.

(** The glyph loop never touches the save stack. *)
Lemma draw_glyphs_no_stack (m : metrics) (y : Q) (text : jsstr) : forall x,
  no_stack (draw_glyphs m y x text) = true.
Proof.
  induction text as [|ch text IH]; intros x; [reflexivity|]. cbn [draw_glyphs].
  destruct (ch =? code_colon)%Z; apply no_stack_app; try apply IH; [reflexivity|].
  apply no_stack_flat_map. intros id. reflexivity.
Qed.

Lemma drawSevenSegmentText_no_stack (text : jsstr) (maxWidth targetHeight : Q) (c : color) :
  no_stack (drawSevenSegmentText text maxWidth targetHeight c) = true.
Proof. apply (draw_glyphs_no_stack _ _ text). Qed.

(** ** Witnesses *)

Lemma fitted_width_is_min_witness :
  0 <= 100 /\ 0 < 84 /\
  total_width (fitted_metrics (js:"12:34") 100 84) (js:"12:34")
  == Qmin (total_width (natural_metrics 84) (js:"12:34")) 100.
Proof. split; [qdec | split; [qdec | apply fitted_width_is_min; qdec]]. Defined.

Lemma fitted_height_witness :
  0 <= 300 /\ 0 < 84 /\
  digitHeight (fitted_metrics (js:"12:34") 300 84) <= 84 /\
  (total_width (natural_metrics 84) (js:"12:34") <= 300 ->
   digitHeight (fitted_metrics (js:"12:34") 300 84) == 84).
Proof. split; [qdec | split; [qdec | apply fitted_height; qdec]]. Defined.

Lemma segments_tile_cell_witness :
  metrics_wf (fitted_metrics (js:"12:34") 100 84) /\
  (forall id, box_inside (segment_box (fitted_metrics (js:"12:34") 100 84) 0 0 id) 0 0
                (digitWidth (fitted_metrics (js:"12:34") 100 84))
                (digitHeight (fitted_metrics (js:"12:34") 100 84))) /\
  (forall id1 id2, id1 <> id2 ->
     boxes_disjoint (segment_box (fitted_metrics (js:"12:34") 100 84) 0 0 id1)
                    (segment_box (fitted_metrics (js:"12:34") 100 84) 0 0 id2)).
Proof.
  assert (H : metrics_wf (fitted_metrics (js:"12:34") 100 84))
    by (unfold metrics_wf; repeat split; qdec).
  split; [exact H | apply segments_tile_cell, H].
Defined.

Lemma unknown_char_blank_cell_witness :
  ~ In 80%Z digit_codes /\ 80%Z <> code_colon /\
  draw_glyphs (natural_metrics 84) 0 0 (js:"P1")
  = draw_glyphs (natural_metrics 84) 0 (0 + digitWidth (natural_metrics 84)
                                           + spacing (natural_metrics 84)) (js:"1") /\
  glyph_width (natural_metrics 84) 80 = digitWidth (natural_metrics 84).
Proof.
  assert (H1 : ~ In 80%Z digit_codes) by (simpl; lia).
  assert (H2 : 80%Z <> code_colon) by (unfold code_colon; lia).
  split; [exact H1 | split; [exact H2 | apply unknown_char_blank_cell; assumption]].
Defined.

Lemma draw_glyphs_refines_witness :
  ok init_state = true /\ path init_state = [] /\
  run (draw_glyphs (natural_metrics 84) (-42) 0 (js:"1:")) init_state =
  mk_cstate (gs init_state) (saved init_state) []
    (painted init_state ++
     map (ink_paint (gs init_state)) (glyph_ink (natural_metrics 84) (-42) 0 (js:"1:"))) true.
Proof.
  split; [reflexivity | split; [reflexivity | apply draw_glyphs_refines; reflexivity]].
Defined.

Lemma layout_centred_witness :
  js_length (js:"12:34") = Z.of_nat (List.length (js:"12:34")) /\ js:"12:34" <> [] /\
  - total_width (fitted_metrics (js:"12:34") 100 84) (js:"12:34") / 2
  + advance (fitted_metrics (js:"12:34") 100 84) (js:"12:34")
  - spacing (fitted_metrics (js:"12:34") 100 84)
  == - (- total_width (fitted_metrics (js:"12:34") 100 84) (js:"12:34") / 2).
Proof.
  assert (H1 : js_length (js:"12:34") = Z.of_nat (List.length (js:"12:34"))) by reflexivity.
  assert (H2 : js:"12:34" <> []) by discriminate.
  split; [exact H1 | split; [exact H2 | apply (layout_centred _ 100 84 H1 H2)]].
Defined.

Lemma astral_text_off_centre_witness :
  (Z.of_nat (List.length [128336%Z]) < js_length [128336%Z])%Z /\
  let m := fitted_metrics [128336%Z] 1000 84 in
  let x := - total_width m [128336%Z] / 2 in
  x + advance m [128336%Z] - spacing m == - x - spacing m /\
  (0 < 1000 -> 0 < 84 -> 0 < spacing m).
Proof. split; [vm_compute; reflexivity | apply astral_text_off_centre; vm_compute; reflexivity].
Defined.

Lemma colon_dot_overhang_witness :
  metrics_wf (natural_metrics 84) /\
  colon_dot_x (natural_metrics 84) 0 - colon_dot_radius (natural_metrics 84)
  == 0 - thickness (natural_metrics 84) * (3 # 10) /\
  colon_dot_x (natural_metrics 84) 0 + colon_dot_radius (natural_metrics 84)
  == 0 + colonWidth (natural_metrics 84) + thickness (natural_metrics 84) * (3 # 10).
Proof.
  assert (H : metrics_wf (natural_metrics 84)) by (unfold metrics_wf; repeat split; qdec).
  split; [exact H | apply colon_dot_overhang, H].
Defined.

End SevenSegment.
