(* ===== verification/JsBuiltins.v ===== *)
(** The JavaScript built-ins the widget's code calls on strings and
    numbers, written from the ECMAScript specification for the cases
    the code reaches: a backtracking regular-expression matcher for the
    constructs of [/rgba?\(([^)]+)\)/i] with [String.prototype.match]
    (non-global) on top of it, [split] with a one-character separator,
    [trim], [startsWith], [parseFloat], [parseInt] and the decimal
    printing of an integer in a template literal.  None of this is code of the
    repository; the files that model the repository's functions call
    these definitions where the source calls the built-ins.  The
    theorems are the round trips between printing and [parseFloat] or
    [parseInt], and the shape of [split]'s result. *)

From Stdlib Require Import DecimalPos.
From S2P Require Import Prelude.

Module JsBuiltins.

(** ** Characters *)

(** [WhiteSpace] and [LineTerminator] code points: what [trim] removes
    and what [parseFloat] skips. *)
Definition is_js_space (c : Z) : bool :=
  existsb (Z.eqb c) [9; 10; 11; 12; 13; 32; 160; 5760; 8232; 8233; 8239; 8287; 12288; 65279]%Z
  || ((8192 <=? c) && (c <=? 8202))%Z.

Definition is_digit (c : Z) : bool := ((48 <=? c) && (c <=? 57))%Z.

(** [Canonicalize] of the case-insensitive matcher without the [u]
    flag, on the ASCII range: a lower-case letter becomes upper case.
    Characters outside ASCII never canonicalise into ASCII, so for a
    pattern made of ASCII characters this is the whole function. *)
Definition canon (c : Z) : Z := if ((97 <=? c) && (c <=? 122))%Z then (c - 32)%Z else c.

(** ** Regular expressions *)

Inductive atom : Type :=
| AChar (c : Z)        (** one character *)
| ANot (c : Z).        (** the class [[^c]] *)

Inductive regex : Type :=
| RAtom (a : atom)
| RSeq (r1 r2 : regex)
| ROpt (a : atom)      (** [a?], greedy *)
| RPlus (a : atom)     (** [a+], greedy *)
| RGroup (r : regex).  (** a capturing group *)

Definition atom_matches (icase : bool) (a : atom) (c : Z) : bool :=
  let cn x := if icase then canon x else x in
  match a with
  | AChar d => Z.eqb (cn c) (cn d)
  | ANot d => negb (Z.eqb (cn c) (cn d))
  end.

(** A continuation receives the rest of the input and the captures so
    far (in group order); the first continuation that succeeds wins,
    which is the backtracking order of the specification. *)
Definition cont : Type := jsstr -> list jsstr -> option (list jsstr).

(** Greedy repetition of an atom: consume one more character first,
    give the continuation the current position if that fails. *)
Fixpoint star (icase : bool) (a : atom) (s : jsstr) (caps : list jsstr) (k : cont)
  : option (list jsstr) :=
  match s with
  | c :: rest =>
      if atom_matches icase a c then
        match star icase a rest caps k with
        | Some r => Some r
        | None => k s caps
        end
      else k s caps
  | [] => k [] caps
  end.

Fixpoint mtch (icase : bool) (r : regex) (s : jsstr) (caps : list jsstr) (k : cont)
  : option (list jsstr) :=
  match r with
  | RAtom a =>
      match s with
      | c :: rest => if atom_matches icase a c then k rest caps else None
      | [] => None
      end
  | RSeq r1 r2 => mtch icase r1 s caps (fun s' caps' => mtch icase r2 s' caps' k)
  | ROpt a =>
      match s with
      | c :: rest =>
          if atom_matches icase a c then
            match k rest caps with Some x => Some x | None => k s caps end
          else k s caps
      | [] => k s caps
      end
  | RPlus a =>
      match s with
      | c :: rest => if atom_matches icase a c then star icase a rest caps k else None
      | [] => None
      end
  | RGroup r1 =>
      mtch icase r1 s caps
        (fun s' caps' => k s' (caps' ++ [firstn (List.length s - List.length s') s]))
  end.

(** [str.match(re)] for a non-global [re]: the first position from the
    left where the pattern matches; [Some caps] lists [match[1]], ... *)
Fixpoint regex_exec (icase : bool) (r : regex) (s : jsstr) : option (list jsstr) :=
  match mtch icase r s [] (fun _ caps => Some caps) with
  | Some caps => Some caps
  | None => match s with [] => None | _ :: rest => regex_exec icase r rest end
  end.

(** ** Strings *)

(** [s.split(sep)] for a one-character separator. *)
Fixpoint split (sep : Z) (s : jsstr) : list jsstr :=
  match s with
  | [] => [[]]
  | c :: rest =>
      if Z.eqb c sep then [] :: split sep rest
      else match split sep rest with
           | p :: ps => (c :: p) :: ps
           | [] => [[c]]
           end
  end.

Fixpoint trim_start (s : jsstr) : jsstr :=
  match s with
  | c :: rest => if is_js_space c then trim_start rest else s
  | [] => []
  end.

Definition trim (s : jsstr) : jsstr := rev (trim_start (rev (trim_start s))).

Definition startsWith (s prefix : jsstr) : bool :=
  let fix go (s p : jsstr) := match p, s with
    | [], _ => true
    | d :: p', c :: s' => Z.eqb c d && go s' p'
    | _ :: _, [] => false
    end in go s prefix.

(** ** Numbers *)

Fixpoint span_digits (s : jsstr) : jsstr * jsstr :=
  match s with
  | c :: rest =>
      if is_digit c then let '(ds, r) := span_digits rest in (c :: ds, r) else ([], s)
  | [] => ([], [])
  end.

Definition digits_value (ds : jsstr) : Z :=
  fold_left (fun acc d => (acc * 10 + (d - 48))%Z) ds 0%Z.

(** The exponent part [(e|E) [+-]? digits], when present in full. *)
Definition parse_exponent (s : jsstr) : Z :=
  match s with
  | e :: r =>
      if (Z.eqb e 101 || Z.eqb e 69)%Z then
        let '(sgn, r') := match r with
                          | 43 :: r' => (1%Z, r')
                          | 45 :: r' => ((-1)%Z, r')
                          | _ => (1%Z, r)
                          end%Z in
        let '(ds, _) := span_digits r' in
        match ds with [] => 0%Z | _ => (sgn * digits_value ds)%Z end
      else 0%Z
  | [] => 0%Z
  end.

(** The longest prefix that is a [StrUnsignedDecimalLiteral] other
    than [Infinity]: digits, an optional fraction, an optional
    exponent, with at least one digit before the exponent. *)
Definition parse_unsigned_decimal (s : jsstr) : option Q :=
  let '(ip, r1) := span_digits s in
  let '(fp, r2) := match r1 with
                   | 46 :: r => span_digits r
                   | _ => ([], r1)
                   end%Z in
  match ip ++ fp with
  | [] => None
  | ds =>
      Some (inject_Z (digits_value ds) / inject_Z (10 ^ Z.of_nat (List.length fp))
            * Qpower 10 (parse_exponent r2))
  end.

Definition infinity_lit : jsstr := js:"Infinity".

Definition parse_unsigned (s : jsstr) : jsnum :=
  if startsWith s infinity_lit then JInf false
  else match parse_unsigned_decimal s with Some q => JFin q | None => JNaN end.

Definition negate (v : jsnum) : jsnum :=
  match v with
  | JFin q => JFin (- q)
  | JInf n => JInf (negb n)
  | JNaN => JNaN
  end.

(** [parseFloat(s)]. *)
Definition parseFloat (s : jsstr) : jsnum :=
  match trim_start s with
  | 43 :: r => parse_unsigned r
  | 45 :: r => negate (parse_unsigned r)
  | r => parse_unsigned r
  end%Z.

(** The value of [c] as a digit of radix [r] (10 or 16 here): [0-9],
    then [a-z] or [A-Z] from 10 on; [None] when it is not below [r]. *)
Definition radix_digit (r c : Z) : option Z :=
  let v := if ((48 <=? c) && (c <=? 57))%Z then Some (c - 48)%Z
           else if ((97 <=? c) && (c <=? 122))%Z then Some (c - 87)%Z
           else if ((65 <=? c) && (c <=? 90))%Z then Some (c - 55)%Z
           else None in
  match v with Some d => if (d <? r)%Z then Some d else None | None => None end.

(** The longest prefix of radix-[r] digits, as values, and the rest. *)
Fixpoint span_radix (r : Z) (s : jsstr) : list Z * jsstr :=
  match s with
  | c :: rest =>
      match radix_digit r c with
      | Some d => let '(ds, t) := span_radix r rest in (d :: ds, t)
      | None => ([], s)
      end
  | [] => ([], [])
  end.

Definition radix_value (r : Z) (ds : list Z) : Z :=
  fold_left (fun acc d => (acc * r + d)%Z) ds 0%Z.

(** Steps 4-6 of [parseInt]: one optional sign. *)
Definition read_sign (s : jsstr) : Z * jsstr :=
  match s with
  | c :: r => if Z.eqb c 45 then ((-1)%Z, r) else if Z.eqb c 43 then (1%Z, r) else (1%Z, s)
  | [] => (1%Z, [])
  end.

(** Steps 8-11 with no radix argument: [0x] or [0X] selects radix 16
    and is dropped, otherwise the radix is 10. *)
Definition read_radix (s : jsstr) : Z * jsstr :=
  match s with
  | c :: x :: r => if Z.eqb c 48 && (Z.eqb x 120 || Z.eqb x 88) then (16%Z, r) else (10%Z, s)
  | _ => (10%Z, s)
  end.

(** [parseInt(s)] with no radix (ECMAScript, [parseInt] steps 1-16):
    leading white space is skipped, a sign and a radix prefix are read,
    then the longest prefix of digits; no digit at all gives NaN. *)
Definition parseInt (s : jsstr) : jsnum :=
  let '(sign, s2) := read_sign (trim_start s) in
  let '(radix, s3) := read_radix s2 in
  match span_radix radix s3 with
  | ([], _) => JNaN
  | (ds, _) => JFin (inject_Z (sign * radix_value radix ds))
  end.

(** A text that ends a decimal numeral for [parseInt]: empty, or
    starting with neither a digit nor the [x] of a hex prefix. *)
Definition stops_decimal (t : jsstr) : bool :=
  match t with
  | [] => true
  | c :: _ => negb (is_digit c) && negb (Z.eqb c 120) && negb (Z.eqb c 88)
  end.

(** The characters of a decimal numeral. *)
Fixpoint uint_chars (u : Decimal.uint) : jsstr :=
  match u with
  | Decimal.Nil => []
  | Decimal.D0 u' => 48%Z :: uint_chars u'
  | Decimal.D1 u' => 49%Z :: uint_chars u'
  | Decimal.D2 u' => 50%Z :: uint_chars u'
  | Decimal.D3 u' => 51%Z :: uint_chars u'
  | Decimal.D4 u' => 52%Z :: uint_chars u'
  | Decimal.D5 u' => 53%Z :: uint_chars u'
  | Decimal.D6 u' => 54%Z :: uint_chars u'
  | Decimal.D7 u' => 55%Z :: uint_chars u'
  | Decimal.D8 u' => 56%Z :: uint_chars u'
  | Decimal.D9 u' => 57%Z :: uint_chars u'
  end.

(** [`${n}`] for an integer [n]: [Number::toString] in base 10. *)
Definition Z_to_jsstr (z : Z) : jsstr :=
  match z with
  | Z0 => [48%Z]
  | Zpos p => uint_chars (Pos.to_uint p)
  | Zneg p => 45%Z :: uint_chars (Pos.to_uint p)
  end.

(** ** Lemmas *)

Lemma uint_chars_digits (u : Decimal.uint) : forallb is_digit (uint_chars u) = true.
Proof. induction u; cbn; rewrite ?IHu; reflexivity. Qed.

Lemma span_digits_all (s : jsstr) : forallb is_digit s = true -> span_digits s = (s, []).
Proof.
  induction s as [|c s IH]; cbn; [reflexivity|].
  intros H. apply andb_prop in H as [Hc Hs]. rewrite Hc, IH by exact Hs. reflexivity.
Qed.

Definition digit_step (acc d : Z) : Z := (acc * 10 + (d - 48))%Z.

Lemma of_uint_acc_value (u : Decimal.uint) : forall acc,
  Z.pos (Pos.of_uint_acc u acc) = fold_left digit_step (uint_chars u) (Z.pos acc).
Proof.
  induction u; intros acc; cbn [Pos.of_uint_acc uint_chars fold_left];
    try reflexivity; rewrite IHu; f_equal; unfold digit_step; lia.
Qed.

Lemma digits_value_uint (u : Decimal.uint) :
  Z.of_N (Pos.of_uint u) = digits_value (uint_chars u).
Proof.
  induction u; cbn [Pos.of_uint uint_chars Z.of_N]; unfold digits_value in *;
    cbn [fold_left]; try (rewrite of_uint_acc_value; reflexivity); [reflexivity | exact IHu].
Qed.

Lemma uint_chars_pos (p : positive) :
  uint_chars (Pos.to_uint p) <> [] /\
  digits_value (uint_chars (Pos.to_uint p)) = Z.pos p.
Proof.
  rewrite <- digits_value_uint, DecimalPos.Unsigned.of_to. split; [|reflexivity].
  intros E. pose proof (digits_value_uint (Pos.to_uint p)) as H.
  rewrite E, DecimalPos.Unsigned.of_to in H. discriminate H.
Qed.

(** A non-empty run of digits is read as the number it denotes. *)
Lemma parse_unsigned_digits (s : jsstr) : s <> [] -> forallb is_digit s = true ->
  exists q, parse_unsigned s = JFin q /\ q == inject_Z (digits_value s).
Proof.
  intros Hne Hd. unfold parse_unsigned.
  destruct s as [|c s']; [congruence|].
  assert (Hst : startsWith (c :: s') infinity_lit = false).
  { cbn in Hd. apply andb_prop in Hd as [Hc _]. cbn.
    destruct (Z.eqb_spec c 73); [subst; discriminate Hc | reflexivity]. }
  rewrite Hst. unfold parse_unsigned_decimal. rewrite span_digits_all by exact Hd.
  rewrite app_nil_r. eexists; split; [reflexivity|].
  cbn [List.length Z.of_nat Qpower parse_exponent]. rewrite Z.pow_0_r.
  change (inject_Z 1) with 1. field.
Qed.

Lemma digit_not_space (c : Z) : is_digit c = true -> is_js_space c = false.
Proof.
  unfold is_digit, is_js_space. intros H. apply andb_prop in H as [H1 H2].
  apply Z.leb_le in H1, H2. cbn [existsb].
  rewrite !(proj2 (Z.eqb_neq c _)) by lia.
  replace (8192 <=? c)%Z with false by (symmetry; apply Z.leb_gt; lia). reflexivity.
Qed.

Lemma parseFloat_digit_head (c : Z) (r : jsstr) :
  is_digit c = true -> parseFloat (c :: r) = parse_unsigned (c :: r).
Proof.
  intros H. unfold parseFloat. cbn [trim_start]. rewrite (digit_not_space c H).
  assert (Hc : (c = 48 \/ c = 49 \/ c = 50 \/ c = 51 \/ c = 52 \/ c = 53 \/
                c = 54 \/ c = 55 \/ c = 56 \/ c = 57)%Z).
  { unfold is_digit in H. apply andb_prop in H as [H1 H2]. apply Z.leb_le in H1, H2. lia. }
  repeat destruct Hc as [-> | Hc]; subst; reflexivity.
Qed.

(** Printing an integer and reading it back with [parseFloat] gives the
    integer. *)
Lemma parseFloat_Z_to_jsstr (z : Z) :
  exists q, parseFloat (Z_to_jsstr z) = JFin q /\ q == inject_Z z.
Proof.
  destruct z as [|p|p].
  - exists 0. split; [vm_compute; reflexivity | reflexivity].
  - destruct (uint_chars_pos p) as [Hne Hv].
    destruct (parse_unsigned_digits _ Hne (uint_chars_digits _)) as [q [Hq Hqv]].
    exists q. split; [|rewrite Hqv, Hv; reflexivity].
    unfold Z_to_jsstr. pose proof (uint_chars_digits (Pos.to_uint p)) as Hd.
    destruct (uint_chars (Pos.to_uint p)) as [|c r]; [congruence|].
    cbn in Hd. apply andb_prop in Hd as [Hc _].
    rewrite parseFloat_digit_head by exact Hc. exact Hq.
  - destruct (uint_chars_pos p) as [Hne Hv].
    destruct (parse_unsigned_digits _ Hne (uint_chars_digits _)) as [q [Hq Hqv]].
    exists (- q). split.
    + unfold parseFloat, Z_to_jsstr. cbn. rewrite Hq. reflexivity.
    + rewrite Hqv, Hv. reflexivity.
Qed.

(** ** [parseInt] on a decimal numeral *)

Lemma radix_digit_10 (c : Z) :
  radix_digit 10 c = if is_digit c then Some (c - 48)%Z else None.
Proof.
  unfold radix_digit, is_digit.
  destruct (Z.leb_spec 48 c), (Z.leb_spec c 57); cbn [andb];
    [replace (c - 48 <? 10)%Z with true by (symmetry; apply Z.ltb_lt; lia); reflexivity | ..];
    destruct (Z.leb_spec 97 c), (Z.leb_spec c 122); cbn [andb];
    try (replace (c - 87 <? 10)%Z with false by (symmetry; apply Z.ltb_ge; lia); reflexivity);
    destruct (Z.leb_spec 65 c), (Z.leb_spec c 90); cbn [andb];
    try (replace (c - 55 <? 10)%Z with false by (symmetry; apply Z.ltb_ge; lia));
    reflexivity.
Qed.

Lemma span_radix_decimal (ds tail : jsstr) :
  forallb is_digit ds = true -> stops_decimal tail = true ->
  span_radix 10 (ds ++ tail) = (map (fun d => d - 48)%Z ds, tail).
Proof.
  intros Hd Ht. induction ds as [|c ds IH]; cbn [app span_radix map].
  - destruct tail as [|c r]; [reflexivity|]. cbn in Ht. cbn [span_radix].
    apply andb_prop in Ht as [Ht _]. apply andb_prop in Ht as [Ht _].
    rewrite radix_digit_10. destruct (is_digit c); [discriminate Ht | reflexivity].
  - cbn [forallb] in Hd. apply andb_prop in Hd as [Hc Hd].
    rewrite radix_digit_10, Hc, IH by exact Hd. reflexivity.
Qed.

Lemma radix_value_decimal (ds : jsstr) :
  radix_value 10 (map (fun d => d - 48)%Z ds) = digits_value ds.
Proof.
  unfold radix_value, digits_value. generalize 0%Z.
  induction ds as [|c ds IH]; intros acc; cbn [map fold_left]; [reflexivity | apply IH].
Qed.

Lemma read_radix_decimal (ds tail : jsstr) :
  ds <> [] -> forallb is_digit ds = true -> stops_decimal tail = true ->
  read_radix (ds ++ tail) = (10%Z, ds ++ tail).
Proof.
  intros Hne Hd Ht. destruct ds as [|c [|c' ds]]; [congruence| |]; cbn [app read_radix].
  - destruct tail as [|x r]; [reflexivity|]. cbn in Ht.
    apply andb_prop in Ht as [Ht Hx]. apply andb_prop in Ht as [_ Hx'].
    apply negb_true_iff in Hx, Hx'. rewrite Hx, Hx'. rewrite andb_false_r. reflexivity.
  - cbn [forallb] in Hd. apply andb_prop in Hd as [_ Hd]. apply andb_prop in Hd as [Hc' _].
    unfold is_digit in Hc'. apply andb_prop in Hc' as [H1 H2]. apply Z.leb_le in H1, H2.
    rewrite (proj2 (Z.eqb_neq c' 120)), (proj2 (Z.eqb_neq c' 88)) by lia.
    rewrite andb_false_r. reflexivity.
Qed.

(** [parseInt] reads a run of decimal digits followed by anything that
    ends the numeral as the number the digits denote. *)
Lemma parseInt_digits (ds tail : jsstr) :
  ds <> [] -> forallb is_digit ds = true -> stops_decimal tail = true ->
  parseInt (ds ++ tail) = JFin (inject_Z (digits_value ds)).
Proof.
  intros Hne Hd Ht. unfold parseInt.
  destruct ds as [|c r]; [congruence|].
  pose proof Hd as Hc. cbn [forallb] in Hc. apply andb_prop in Hc as [Hc _].
  assert (Hs : trim_start ((c :: r) ++ tail) = (c :: r) ++ tail)
    by (cbn [app trim_start]; rewrite digit_not_space by exact Hc; reflexivity).
  assert (Hsg : read_sign ((c :: r) ++ tail) = (1%Z, (c :: r) ++ tail)).
  { cbn [app read_sign]. unfold is_digit in Hc.
    apply andb_prop in Hc as [H1 H2]. apply Z.leb_le in H1, H2.
    rewrite (proj2 (Z.eqb_neq c 45)), (proj2 (Z.eqb_neq c 43)) by lia. reflexivity. }
  rewrite Hs, Hsg, read_radix_decimal, span_radix_decimal by assumption.
  rewrite <- radix_value_decimal. cbn [map]. rewrite Z.mul_1_l. reflexivity.
Qed.

(** Printing a non-negative integer and reading it back with [parseInt]
    gives the integer, whatever ends the numeral. *)
Lemma parseInt_Z_to_jsstr (n : Z) (tail : jsstr) : (0 <= n)%Z -> stops_decimal tail = true ->
  parseInt (Z_to_jsstr n ++ tail) = JFin (inject_Z n).
Proof.
  intros Hn Ht. destruct n as [|p|p]; [| |lia].
  - apply (parseInt_digits [48%Z]); [discriminate | reflexivity | exact Ht].
  - destruct (uint_chars_pos p) as [Hne Hv]. cbn [Z_to_jsstr].
    rewrite parseInt_digits by (exact Hne || apply uint_chars_digits || exact Ht).
    rewrite Hv. reflexivity.
Qed.

(** ** The matcher on a capture without a closing parenthesis *)

Lemma canon_not_close (c : Z) : c <> 41%Z -> canon c <> 41%Z.
Proof.
  unfold canon. destruct ((97 <=? c) && (c <=? 122))%Z eqn:E; [|auto].
  apply andb_prop in E as [E1 _]. apply Z.leb_le in E1. lia.
Qed.

Lemma not_close_matches (c : Z) : c <> 41%Z -> atom_matches true (ANot 41) c = true.
Proof.
  intros H. cbn. rewrite (proj2 (Z.eqb_neq _ _) (canon_not_close c H)). reflexivity.
Qed.

(** Greedy [[^)]*] runs to the first [)] and hands it to the
    continuation. *)
Lemma star_to_close (u rest : jsstr) (caps : list jsstr) (k : cont) (x : list jsstr) :
  ~ In 41%Z u -> k (41%Z :: rest) caps = Some x ->
  star true (ANot 41) (u ++ 41%Z :: rest) caps k = Some x.
Proof.
  intros Hu Hk. induction u as [|c u IH]; cbn [star app].
  - exact Hk.
  - rewrite not_close_matches by (intros ->; apply Hu; left; reflexivity).
    rewrite IH by (intros H; apply Hu; right; exact H). reflexivity.
Qed.

(** [([^)]+)] followed by [)] captures everything up to the first [)]. *)
Lemma group_to_close (u rest : jsstr) (caps : list jsstr) (k : cont) (x : list jsstr) :
  u <> [] -> ~ In 41%Z u -> k (41%Z :: rest) (caps ++ [u]) = Some x ->
  mtch true (RGroup (RPlus (ANot 41))) (u ++ 41%Z :: rest) caps k = Some x.
Proof.
  intros Hne Hu Hk. destruct u as [|c u]; [congruence|]. cbn [mtch app].
  rewrite not_close_matches by (intros ->; apply Hu; left; reflexivity).
  apply star_to_close; [intros H; apply Hu; right; exact H|].
  replace (List.length (c :: u ++ 41%Z :: rest) - List.length (41%Z :: rest))%nat
    with (List.length (c :: u)) by (cbn; rewrite length_app; cbn; lia).
  change (c :: u ++ 41%Z :: rest) with ((c :: u) ++ 41%Z :: rest).
  rewrite firstn_app, Nat.sub_diag, firstn_all. cbn. rewrite app_nil_r. exact Hk.
Qed.

(** ** [split] and [trim] on plain text *)

Lemma split_no_sep (sep : Z) (p : jsstr) : ~ In sep p -> split sep p = [p].
Proof.
  induction p as [|c p IH]; intros H; [reflexivity|]. cbn.
  rewrite (proj2 (Z.eqb_neq c sep)) by (intros ->; apply H; left; reflexivity).
  rewrite IH by (intros Hi; apply H; right; exact Hi). reflexivity.
Qed.

Lemma split_app_sep (sep : Z) (p q : jsstr) :
  ~ In sep p -> split sep (p ++ sep :: q) = p :: split sep q.
Proof.
  induction p as [|c p IH]; intros H; cbn; [rewrite Z.eqb_refl; reflexivity|].
  rewrite (proj2 (Z.eqb_neq c sep)) by (intros ->; apply H; left; reflexivity).
  rewrite IH by (intros Hi; apply H; right; exact Hi). reflexivity.
Qed.

Lemma trim_start_no_space (s : jsstr) : forallb (fun c => negb (is_js_space c)) s = true ->
  trim_start s = s.
Proof.
  destruct s as [|c s]; [reflexivity|]. cbn. intros H.
  apply andb_prop in H as [H _]. apply negb_true_iff in H. rewrite H. reflexivity.
Qed.

Lemma trim_no_space (s : jsstr) : forallb (fun c => negb (is_js_space c)) s = true ->
  trim s = s.
Proof.
  intros H. unfold trim. rewrite (trim_start_no_space s H), trim_start_no_space.
  - apply rev_involutive.
  - rewrite forallb_forall in *. intros c Hc. apply H, in_rev, Hc.
Qed.

(** ** The characters of a printed integer *)

Definition numeral_char (c : Z) : bool := is_digit c || Z.eqb c 45.

Lemma Z_to_jsstr_chars (z : Z) : forallb numeral_char (Z_to_jsstr z) = true.
Proof.
  assert (H : forall u, forallb numeral_char (uint_chars u) = true).
  { intros u. pose proof (uint_chars_digits u) as Hd. rewrite forallb_forall in *.
    intros c Hc. unfold numeral_char. rewrite (Hd c Hc). reflexivity. }
  destruct z; cbn [Z_to_jsstr forallb]; [reflexivity | apply H |].
  rewrite H. reflexivity.
Qed.

Lemma numeral_not_in (z c : Z) : numeral_char c = false -> ~ In c (Z_to_jsstr z).
Proof.
  intros Hc Hin. pose proof (Z_to_jsstr_chars z) as H. rewrite forallb_forall in H.
  rewrite (H c Hin) in Hc. discriminate.
Qed.

Lemma numeral_no_space (z : Z) :
  forallb (fun c => negb (is_js_space c)) (Z_to_jsstr z) = true.
Proof.
  pose proof (Z_to_jsstr_chars z) as H. rewrite forallb_forall in *.
  intros c Hc. specialize (H c Hc). unfold numeral_char in H.
  destruct (is_digit c) eqn:E.
  - rewrite digit_not_space by exact E. reflexivity.
  - apply Z.eqb_eq in H. subst. reflexivity.
Qed.

Lemma Z_to_jsstr_nonempty (z : Z) : Z_to_jsstr z <> [].
Proof.
  destruct z as [|p|p]; cbn; try discriminate. apply (uint_chars_pos p).
Qed.

End JsBuiltins.
