(* ===== verification/Rgba.v ===== *)
(** [_parseRgba] (ModifiedClock.js, lines 562-579): the colour parser
    the analog and LED painters apply to the [time-font-color] and
    [hint-font-color] settings.  The input is matched against
    [/rgba?\(([^)]+)\)/i]; the capture is split at commas, each part
    trimmed and read with [parseFloat]; fewer than three parts give the
    fallback colour, otherwise each channel is the parsed value (over
    255 for red, green and blue) or, where that is NaN, the fallback's
    channel.  The theorems: the parser never yields a NaN channel, it
    reads back every [rgb(...)]/[rgba(...)] string with integer
    components (so it does not normalise into [0, 1]), and it falls back
    channel by channel where the spec expects the whole fallback. *)

From S2P Require Import Prelude JsBuiltins.
Import JsBuiltins.

Module Rgba.

(** [/rgba?\(([^)]+)\)/i]. *)
Definition rgba_regex : regex :=
  RSeq (RAtom (AChar 114))
 (RSeq (RAtom (AChar 103))
 (RSeq (RAtom (AChar 98))
 (RSeq (ROpt (AChar 97))
 (RSeq (RAtom (AChar 40))
 (RSeq (RGroup (RPlus (ANot 41)))
       (RAtom (AChar 41))))))).

(** [parts.length < 3 ? fallback : ...] and the destructuring
    [const [r, g, b, a = 1] = parts] with the per-channel [isNaN]
    tests, lines 569-578. *)
Definition channels (parts : list jsnum) (fallback : color) : color :=
  if (Z.of_nat (List.length parts) <? 3)%Z then fallback else
  match parts with
  | r :: g :: b :: rest =>
      let a := match rest with a :: _ => a | [] => JFin 1 end in
      mk_color (if isNaN r then red fallback else jdiv_pos r 255)
               (if isNaN g then green fallback else jdiv_pos g 255)
               (if isNaN b then blue fallback else jdiv_pos b 255)
               (if isNaN a then alpha fallback else a)
  | _ => fallback
  end.

(** [_parseRgba(value, fallback)]; [None] is an absent [value], for
    which [value?.match] is undefined. *)
Definition parseRgba (value : option jsstr) (fallback : color) : color :=
  match value with
  | None => fallback
  | Some v =>
      match regex_exec true rgba_regex v with
      | None => fallback
      | Some caps =>
          channels (map (fun part => parseFloat (trim part)) (split 44 (nth 0 caps [])))
            fallback
      end
  end.

(** The strings GTK's colour chooser writes: [rgb(r,g,b)] or
    [rgba(r,g,b,a)], here with integer components. *)
Definition print_rgba (r g b : Z) (a : option Z) : jsstr :=
  match a with
  | None => js:"rgb(" ++ Z_to_jsstr r ++ [44%Z] ++ Z_to_jsstr g ++ [44%Z] ++ Z_to_jsstr b
            ++ js:")"
  | Some a => js:"rgba(" ++ Z_to_jsstr r ++ [44%Z] ++ Z_to_jsstr g ++ [44%Z] ++ Z_to_jsstr b
              ++ [44%Z] ++ Z_to_jsstr a ++ js:")"
  end.

Definition color_not_nan (c : color) : Prop :=
  isNaN (red c) = false /\ isNaN (green c) = false /\
  isNaN (blue c) = false /\ isNaN (alpha c) = false.

(** ** Theorems *)

Lemma jdiv_pos_not_nan (v : jsnum) (d : Q) : isNaN v = false -> isNaN (jdiv_pos v d) = false.
Proof. destruct v; cbn; auto. Qed.

(** C4: the parser is total and never produces NaN: whatever the
    input, every channel of the result is a number as long as the
    fallback's channels are. *)
Theorem parseRgba_not_nan (value : option jsstr) (fallback : color) :
  color_not_nan fallback -> color_not_nan (parseRgba value fallback).
Proof.
  intros Hfb. unfold parseRgba.
  destruct value as [v|]; [|exact Hfb].
  destruct (regex_exec true rgba_regex v) as [caps|]; [|exact Hfb].
  unfold channels.
  destruct (Z.of_nat _ <? 3)%Z; [exact Hfb|].
  destruct Hfb as (H1 & H2 & H3 & H4).
  destruct (map _ _) as [|r [|g [|b rest]]]; try (repeat split; assumption).
  set (a := match rest with a :: _ => a | [] => JFin 1 end).
  unfold color_not_nan; cbn [red green blue alpha].
  repeat split;
    [destruct (isNaN r) eqn:E | destruct (isNaN g) eqn:E | destruct (isNaN b) eqn:E
    | destruct (isNaN a) eqn:E]; auto using jdiv_pos_not_nan.
Qed.

(** The regular expression applied to [rgb(u)] or [rgba(u)] captures
    [u] when [u] is non-empty and has no [)]. *)
Lemma rgba_regex_capture (u : jsstr) (withA : bool) : u <> [] -> ~ In 41%Z u ->
  regex_exec true rgba_regex
    ((114 :: 103 :: 98 :: (if withA then [97; 40] else [40])) ++ u ++ [41])%Z = Some [u].
Proof.
  intros Hne Hu.
  remember (RSeq (RGroup (RPlus (ANot 41))) (RAtom (AChar 41))) as tail eqn:Et.
  assert (Htail : mtch true tail (u ++ [41%Z]) [] (fun _ caps => Some caps) = Some [u]).
  { subst tail. change (mtch true (RSeq ?r1 ?r2) ?s ?c ?k)
                  with (mtch true r1 s c (fun s' c' => mtch true r2 s' c' k)).
    apply group_to_close; [exact Hne | exact Hu | reflexivity]. }
  assert (Hr : rgba_regex = RSeq (RAtom (AChar 114)) (RSeq (RAtom (AChar 103))
             (RSeq (RAtom (AChar 98)) (RSeq (ROpt (AChar 97)) (RSeq (RAtom (AChar 40)) tail)))))
    by (subst; reflexivity).
  rewrite Hr. destruct withA; cbn [regex_exec mtch app atom_matches canon];
    cbn -[mtch]; rewrite Htail; reflexivity.
Qed.

(** C3: round trip with the colour chooser's format: reading back
    [rgb(r,g,b)] or [rgba(r,g,b,a)] with integer components gives
    [r/255], [g/255], [b/255] and [a] (1 when absent), whatever the
    fallback. *)
Theorem parseRgba_print (r g b : Z) (a : option Z) (fallback : color) :
  color_eqv (parseRgba (Some (print_rgba r g b a)) fallback)
    (mk_color (JFin (inject_Z r / 255)) (JFin (inject_Z g / 255)) (JFin (inject_Z b / 255))
              (JFin (match a with Some a => inject_Z a | None => 1 end))).
Proof.
  destruct (parseFloat_Z_to_jsstr r) as [qr [Hr Er]].
  destruct (parseFloat_Z_to_jsstr g) as [qg [Hg Eg]].
  destruct (parseFloat_Z_to_jsstr b) as [qb [Hb Eb]].
  assert (Hc : forall z, ~ In 44%Z (Z_to_jsstr z)) by (intros z; apply numeral_not_in; reflexivity).
  assert (Hp : forall z, ~ In 41%Z (Z_to_jsstr z)) by (intros z; apply numeral_not_in; reflexivity).
  assert (Ht : forall z, trim (Z_to_jsstr z) = Z_to_jsstr z)
    by (intros z; apply trim_no_space, numeral_no_space).
  destruct a as [a|].
  - destruct (parseFloat_Z_to_jsstr a) as [qa [Ha Ea]].
    set (u := Z_to_jsstr r ++ 44%Z :: Z_to_jsstr g ++ 44%Z :: Z_to_jsstr b ++ 44%Z :: Z_to_jsstr a).
    assert (Hs : print_rgba r g b (Some a) =
                 ((114 :: 103 :: 98 :: (if true then [97; 40] else [40])) ++ u ++ [41])%Z)
      by (unfold print_rgba, u; cbn [str app];
          repeat (progress (rewrite <- ?app_assoc; cbn [app])); reflexivity).
    unfold parseRgba. rewrite Hs, (rgba_regex_capture u true).
    2: { unfold u. intros E. apply app_eq_nil in E as [_ E]. discriminate E. }
    2: { unfold u. intros H. repeat (rewrite in_app_iff in H; cbn [In] in H).
         repeat destruct H as [H|H]; try discriminate H; eapply Hp; eassumption. }
    cbn [nth]. unfold u.
    rewrite !split_app_sep by apply Hc. rewrite split_no_sep by apply Hc.
    cbn [map]. rewrite !Ht, Hr, Hg, Hb, Ha. cbn.
    repeat split; cbn; [rewrite Er | rewrite Eg | rewrite Eb | rewrite Ea]; reflexivity.
  - set (u := Z_to_jsstr r ++ 44%Z :: Z_to_jsstr g ++ 44%Z :: Z_to_jsstr b).
    assert (Hs : print_rgba r g b None =
                 ((114 :: 103 :: 98 :: (if false then [97; 40] else [40])) ++ u ++ [41])%Z)
      by (unfold print_rgba, u; cbn [str app];
          repeat (progress (rewrite <- ?app_assoc; cbn [app])); reflexivity).
    unfold parseRgba. rewrite Hs, (rgba_regex_capture u false).
    2: { unfold u. intros E. apply app_eq_nil in E as [_ E]. discriminate E. }
    2: { unfold u. intros H. repeat (rewrite in_app_iff in H; cbn [In] in H).
         repeat destruct H as [H|H]; try discriminate H; eapply Hp; eassumption. }
    cbn [nth]. unfold u.
    rewrite !split_app_sep by apply Hc. rewrite split_no_sep by apply Hc.
    cbn [map]. rewrite !Ht, Hr, Hg, Hb. cbn.
    repeat split; cbn; [rewrite Er | rewrite Eg | rewrite Eb]; reflexivity.
Qed.

(** The parser on [rgb(u)] or [rgba(u)]: the parts of [u] between
    commas, trimmed and read with [parseFloat], go to [channels]. *)
Lemma parseRgba_capture (u : jsstr) (withA : bool) (fallback : color) :
  u <> [] -> ~ In 41%Z u ->
  parseRgba (Some ((114 :: 103 :: 98 :: (if withA then [97; 40] else [40])) ++ u ++ [41])%Z)
    fallback =
  channels (map (fun part => parseFloat (trim part)) (split 44 u)) fallback.
Proof. intros Hne Hp. unfold parseRgba. rewrite rgba_regex_capture by assumption. reflexivity. Qed.

(** C23: the fallback is per channel, not all or nothing: in
    [rgb(r,g,b)] with integer [r] and [b] and a green part that does
    not read as a number, red and blue are parsed and only green comes
    from the fallback, so the result differs from the fallback as soon
    as the fallback's red is not [r/255]; the spec expects the fallback
    unchanged for an input with fewer than three numeric components. *)
Theorem parseRgba_partial_fallback (r b : Z) (g : jsstr) (fallback : color) :
  ~ In 44%Z g -> ~ In 41%Z g -> parseFloat (trim g) = JNaN ->
  let c := parseRgba (Some (js:"rgb(" ++ Z_to_jsstr r ++ 44%Z :: g ++ 44%Z :: Z_to_jsstr b
                            ++ js:")")) fallback in
  color_eqv c (mk_color (JFin (inject_Z r / 255)) (green fallback) (JFin (inject_Z b / 255))
                        (JFin 1)) /\
  (~ jsnum_eqv (red fallback) (JFin (inject_Z r / 255)) -> ~ color_eqv c fallback).
Proof.
  intros Hc Hp Hg c.
  destruct (parseFloat_Z_to_jsstr r) as [qr [Hr Er]].
  destruct (parseFloat_Z_to_jsstr b) as [qb [Hb Eb]].
  assert (Hcz : forall z, ~ In 44%Z (Z_to_jsstr z)) by (intros z; apply numeral_not_in; reflexivity).
  assert (Hpz : forall z, ~ In 41%Z (Z_to_jsstr z)) by (intros z; apply numeral_not_in; reflexivity).
  assert (Ht : forall z, trim (Z_to_jsstr z) = Z_to_jsstr z)
    by (intros z; apply trim_no_space, numeral_no_space).
  set (u := Z_to_jsstr r ++ 44%Z :: g ++ 44%Z :: Z_to_jsstr b).
  assert (Hs : js:"rgb(" ++ Z_to_jsstr r ++ 44%Z :: g ++ 44%Z :: Z_to_jsstr b ++ js:")" =
               ((114 :: 103 :: 98 :: (if false then [97; 40] else [40])) ++ u ++ [41])%Z)
    by (unfold u; cbn [str app]; repeat (progress (rewrite <- ?app_assoc; cbn [app]));
        reflexivity).
  assert (Hcol : color_eqv c (mk_color (JFin (inject_Z r / 255)) (green fallback)
                                       (JFin (inject_Z b / 255)) (JFin 1))).
  { unfold c. rewrite Hs, (parseRgba_capture u false).
    2: { unfold u. intros E. apply app_eq_nil in E as [_ E]. discriminate E. }
    2: { unfold u. intros H. repeat (rewrite in_app_iff in H; cbn [In] in H).
         repeat destruct H as [H|H]; try discriminate H; try (eapply Hpz; eassumption).
         apply Hp, H. }
    unfold u. rewrite split_app_sep by apply Hcz. rewrite split_app_sep by exact Hc.
    rewrite split_no_sep by apply Hcz. cbn [map]. rewrite !Ht, Hr, Hb, Hg. cbn.
    repeat split; cbn; [rewrite Er | reflexivity | rewrite Eb]; reflexivity. }
  split; [exact Hcol|]. intros Hred Heq. apply Hred.
  destruct (transitivity (symmetry Heq) Hcol) as (H & _). exact H.
Qed.

(** ** Witnesses *)

Lemma parseRgba_partial_fallback_witness :
  ~ In 44%Z (js:" green") /\ ~ In 41%Z (js:" green") /\ parseFloat (trim (js:" green")) = JNaN /\
  let c := parseRgba (Some (js:"rgb(" ++ Z_to_jsstr 51 ++ 44%Z :: js:" green" ++ 44%Z ::
                            Z_to_jsstr 102 ++ js:")")) (mk_color (JFin 1) (JFin 1) (JFin 1) (JFin 1)) in
  color_eqv c (mk_color (JFin (inject_Z 51 / 255)) (green (mk_color (JFin 1) (JFin 1) (JFin 1) (JFin 1)))
                        (JFin (inject_Z 102 / 255)) (JFin 1)) /\
  (~ jsnum_eqv (red (mk_color (JFin 1) (JFin 1) (JFin 1) (JFin 1))) (JFin (inject_Z 51 / 255)) ->
   ~ color_eqv c (mk_color (JFin 1) (JFin 1) (JFin 1) (JFin 1))).
Proof.
  assert (H1 : ~ In 44%Z (js:" green")) by (simpl; intuition discriminate).
  assert (H2 : ~ In 41%Z (js:" green")) by (simpl; intuition discriminate).
  assert (H3 : parseFloat (trim (js:" green")) = JNaN) by (vm_compute; reflexivity).
  split; [exact H1 | split; [exact H2 | split; [exact H3 |]]].
  apply (parseRgba_partial_fallback 51 102 (js:" green")); assumption.
Defined.

Lemma parseRgba_not_nan_witness :
  color_not_nan (mk_color (JFin 1) (JFin 1) (JFin 1) (JFin 1)) /\
  color_not_nan (parseRgba (Some (js:"rgba(12, x, 3, NaN)"))
                           (mk_color (JFin 1) (JFin 1) (JFin 1) (JFin 1))).
Proof.
  assert (H : color_not_nan (mk_color (JFin 1) (JFin 1) (JFin 1) (JFin 1)))
    by (repeat split).
  split; [exact H | apply parseRgba_not_nan, H].
Defined.

End Rgba.
