(* ===== verification/ClockFace.v ===== *)
(** The two drawn clocks of ModifiedClock.js: [_paintAnalogClock]
    (lines 335-400) and [_paintLedClock] (lines 402-464), with the time
    decomposition they share (lines 342-345 and 409-412) and the LED
    dot classification (lines 414-454).  The wall time is the local
    [getHours]/[getMinutes]/[getSeconds] of [new Date()], passed in as
    [now]; sine and cosine come from the [Trig] interface (angles in
    units of pi).  The theorems: the hand values stay in range, one
    tick of the clock moves every hand forward by its fixed step modulo
    a full turn, the LED ring lights exactly the elapsed seconds and
    marks the minute and the hour with the accent colour, and both
    painters hand the Cairo context back in the graphics state they got
    it in. *)

From S2P Require Import Prelude Cairo SevenSegment JsBuiltins Rgba.
Import Cairo SevenSegment JsBuiltins Rgba.

(** Sine and cosine of an angle given in units of pi, the two
    functions of [Math] the painters call. *)
Class Trig : Type := {
  sin_pi : Q -> Q;
  cos_pi : Q -> Q;
  sin_pi_bound : forall q, -1 <= sin_pi q <= 1;
  cos_pi_bound : forall q, -1 <= cos_pi q <= 1 }.

(** A rational stand-in for [Math.sin] and [Math.cos], used to run the
    painters on concrete inputs: Bhaskara's approximation of the sine
    on a half turn, extended by symmetry and periodicity and clamped
    to [-1, 1].  The theorems hold for every [Trig]. *)
Definition bhaskara (x : Q) : Q := 16 * x * (1 - x) / (5 - 4 * x * (1 - x)).

Definition sin_approx (q : Q) : Q :=
  let r := q - 2 * inject_Z (Qfloor (q / 2)) in
  if Qle_bool r 1 then bhaskara r else - bhaskara (r - 1).

Definition clamp_unit (q : Q) : Q := Qmax (-1) (Qmin 1 q).

Module ClockFace.

(** ** The time the painters read *)

Record walltime : Type := mk_walltime { getHours : Z; getMinutes : Z; getSeconds : Z }.

Definition walltime_ok (t : walltime) : Prop :=
  (0 <= getHours t <= 23)%Z /\ (0 <= getMinutes t <= 59)%Z /\ (0 <= getSeconds t <= 59)%Z.

(** [(now.getHours() % 12) + now.getMinutes() / 60 + now.getSeconds() / 3600] *)
Definition hours_value (t : walltime) : Q :=
  jsmod (inject_Z (getHours t)) 12 + inject_Z (getMinutes t) / 60
  + inject_Z (getSeconds t) / 3600.

(** [now.getMinutes() + now.getSeconds() / 60] *)
Definition minutes_value (t : walltime) : Q :=
  inject_Z (getMinutes t) + inject_Z (getSeconds t) / 60.

Definition seconds_value (t : walltime) : Q := inject_Z (getSeconds t).

(** The hand angles in units of pi: [(Math.PI / 6) * hours],
    [(Math.PI / 30) * minutes], [(Math.PI / 30) * seconds]. *)
Definition hour_angle (t : walltime) : Q := (1 # 6) * hours_value t.
Definition minute_angle (t : walltime) : Q := (1 # 30) * minutes_value t.
Definition second_angle (t : walltime) : Q := (1 # 30) * seconds_value t.

(** The position of the clock in seconds within twelve hours, and
    within the hour. *)
Definition hms (t : walltime) : Z :=
  (3600 * (getHours t mod 12) + 60 * getMinutes t + getSeconds t)%Z.
Definition ms (t : walltime) : Z := (60 * getMinutes t + getSeconds t)%Z.

(** One second of wall-clock time. *)
Definition tick (t : walltime) : walltime :=
  if (getSeconds t <? 59)%Z then mk_walltime (getHours t) (getMinutes t) (getSeconds t + 1)
  else if (getMinutes t <? 59)%Z then mk_walltime (getHours t) (getMinutes t + 1) 0
  else mk_walltime (if (getHours t <? 23)%Z then getHours t + 1 else 0) 0 0.

(** ** The LED ring *)

(** [hourPos = (hours % 12) * 5], [minutePos = Math.floor(minutes)]. *)
Definition hour_pos (t : walltime) : Q := jsmod (hours_value t) 12 * 5.
Definition minute_pos (t : walltime) : Z := Qfloor (minutes_value t).

Definition baseAlpha : Q := 1 # 10.
Definition litAlpha : Q := 85 # 100.
Definition hourAlpha : Q := 55 # 100.
Definition minuteAlpha : Q := 75 # 100.

(** The colour and alpha of dot [i], lines 439-449. *)
Definition led_dot (base accent : color) (t : walltime) (i : Z) : color * Q :=
  let alpha0 := if (i <=? getSeconds t)%Z then litAlpha else baseAlpha in
  let '(c1, a1) := if Z.eqb i (minute_pos t) then (accent, Qmax alpha0 minuteAlpha)
                   else (base, alpha0) in
  if Z.eqb i (Qfloor (hour_pos t)) then (accent, Qmax a1 hourAlpha) else (c1, a1).

Definition dot_indices : list Z := map Z.of_nat (seq 0 60).

Section Painters.
Context `{T : Trig}.

(** The twelve hour ticks, lines 361-367. *)
Definition hour_ticks (radius : Q) : list cmd :=
  flat_map (fun i =>
    let angle := (1 # 6) * inject_Z i in
    let inner := radius * (8 # 10) in
    let outer := radius * (95 # 100) in
    [MoveTo (inner * sin_pi angle) (- inner * cos_pi angle);
     LineTo (outer * sin_pi angle) (- outer * cos_pi angle)])
    (map Z.of_nat (seq 0 12)).

Definition set_rgb (c : color) (a : jsnum) : cmd := SetSourceRGBA (red c) (green c) (blue c) a.

(** A hand from the centre, [length] radii long. *)
Definition hand (radius length angle : Q) : list cmd :=
  [MoveTo 0 0; LineTo (radius * length * sin_pi angle) (- radius * length * cos_pi angle);
   Stroke].

(** What [_paintAnalogClock] draws between [save] and [restore]; the
    two colours are the [time-font-color] and [hint-font-color]
    settings. *)
Definition analog_body (timeColor hintColor : jsstr) (now : walltime) (width height : Q)
  : list cmd :=
  let radius := Qmin width height / 2 - 4 in
  let primary := parseRgba (Some timeColor) (mk_color (JFin 1) (JFin 1) (JFin 1) (JFin 1)) in
  let accent := parseRgba (Some hintColor)
                  (mk_color (JFin 1) (JFin (3 # 10)) (JFin (3 # 10)) (JFin 1)) in
  [Translate (width / 2) (height / 2);
   SetLineWidth (Qmax 2 (radius * (5 # 100)));
   set_rgb primary (jmul_pos (alpha primary) (6 # 10));
   Arc 0 0 radius 0 2; StrokePreserve;
   set_rgb primary (jmul_pos (alpha primary) (1 # 10)); Fill;
   SetLineWidth (Qmax 2 (radius * (4 # 100)));
   set_rgb primary (jmul_pos (alpha primary) (7 # 10))]
  ++ hour_ticks radius
  ++ [Stroke; SetLineWidth (Qmax 3 (radius * (7 # 100))); set_rgb primary (alpha primary)]
  ++ hand radius (5 # 10) (hour_angle now)
  ++ [SetLineWidth (Qmax 2 (radius * (5 # 100)))]
  ++ hand radius (75 # 100) (minute_angle now)
  ++ [SetLineWidth (Qmax (15 # 10) (radius * (3 # 100))); set_rgb accent (alpha accent)]
  ++ hand radius (82 # 100) (second_angle now)
  ++ [SetLineWidth 1; Arc 0 0 (radius * (5 # 100)) 0 2; set_rgb primary (alpha primary); Fill].

(** [_paintAnalogClock(cr, width, height)]: the body between
    [cr.save()] and [cr.restore()]. *)
Definition paintAnalogClock (timeColor hintColor : jsstr) (now : walltime) (width height : Q)
  : list cmd :=
  [Save] ++ analog_body timeColor hintColor now width height ++ [Restore].

(** The sixty dots, lines 434-454. *)
Definition led_dots (base accent : color) (now : walltime) (radius dotRadius : Q) : list cmd :=
  flat_map (fun i =>
    let angle := (1 # 30) * inject_Z i in
    let x := (radius - dotRadius * (12 # 10)) * sin_pi angle in
    let y := - (radius - dotRadius * (12 # 10)) * cos_pi angle in
    let '(c, a) := led_dot base accent now i in
    [set_rgb c (JFin a); Arc x y dotRadius 0 2; Fill])
    dot_indices.

(** What [_paintLedClock] draws between [save] and [restore];
    [currentTimeText] is [this._currentTimeText] (empty when unset) and
    [wallClock] is [this._wallClock.clock]. *)
(** [this._currentTimeText || this._wallClock.clock.trim()], line 457. *)
Definition led_text (currentTimeText wallClock : jsstr) : jsstr :=
  match currentTimeText with [] => trim wallClock | _ => currentTimeText end.

Definition led_body (timeColor hintColor : jsstr) (currentTimeText wallClock : jsstr)
  (now : walltime) (width height : Q) : list cmd :=
  let radius := Qmin width height / 2 - 8 in
  let base := parseRgba (Some timeColor) (mk_color (JFin 1) (JFin 0) (JFin 0) (JFin 1)) in
  let accent := parseRgba (Some hintColor)
                  (mk_color (JFin 1) (JFin (2 # 10)) (JFin (2 # 10)) (JFin 1)) in
  let dotRadius := Qmax (25 # 10) (radius * (5 # 100)) in
  let timeText := led_text currentTimeText wallClock in
  [Translate (width / 2) (height / 2);
   set_rgb base (JFin (baseAlpha * (6 # 10)));
   SetLineWidth (dotRadius * (14 # 10));
   Arc 0 0 (radius - dotRadius) 0 2; Stroke]
  ++ led_dots base accent now radius dotRadius
  ++ drawSevenSegmentText timeText (width * (7 # 10)) (height * (25 # 100)) base.

(** [_paintLedClock(cr, width, height)]. *)
Definition paintLedClock (timeColor hintColor : jsstr) (currentTimeText wallClock : jsstr)
  (now : walltime) (width height : Q) : list cmd :=
  [Save] ++ led_body timeColor hintColor currentTimeText wallClock now width height ++ [Restore].

End Painters.

(** ** The hand values *)

Lemma jsmod_12 (h : Z) : (0 <= h)%Z -> jsmod (inject_Z h) 12 == inject_Z (h mod 12).
Proof.
  intros H. unfold jsmod.
  assert (Hq : 0 <= inject_Z h) by (change 0 with (inject_Z 0); rewrite <- Zle_Qle; exact H).
  rewrite qtrunc_nonneg by (apply Qle_shift_div_l; [reflexivity | lra]).
  change (12 : Q) with (inject_Z 12). rewrite <- Zdiv_Qdiv.
  rewrite Z.mod_eq by lia. rewrite inject_Z_minus, inject_Z_mult. reflexivity.
Qed.

Lemma hours_value_hms (t : walltime) : walltime_ok t ->
  hours_value t == inject_Z (hms t) / 3600.
Proof.
  intros (Hh & _). unfold hours_value, hms. rewrite jsmod_12 by lia. q_push. field.
Qed.

Lemma minutes_value_ms (t : walltime) : minutes_value t == inject_Z (ms t) / 60.
Proof. unfold minutes_value, ms. q_push. field. Qed.

Lemma hms_range (t : walltime) : walltime_ok t -> (0 <= hms t < 43200)%Z.
Proof.
  intros (Hh & Hm & Hs). unfold hms.
  pose proof (Z.mod_pos_bound (getHours t) 12 ltac:(lia)). lia.
Qed.

Lemma tick_ok (t : walltime) : walltime_ok t -> walltime_ok (tick t).
Proof.
  intros (Hh & Hm & Hs). unfold tick, walltime_ok.
  destruct (Z.ltb_spec (getSeconds t) 59); cbn; [lia|].
  destruct (Z.ltb_spec (getMinutes t) 59); cbn; [lia|].
  destruct (Z.ltb_spec (getHours t) 23); cbn; lia.
Qed.

Lemma mod12_succ (h : Z) :
  ((h + 1) mod 12 = if h mod 12 =? 11 then 0 else h mod 12 + 1)%Z.
Proof.
  rewrite Zplus_mod. pose proof (Z.mod_pos_bound h 12 ltac:(lia)) as Hb.
  destruct (Z.eqb_spec (h mod 12) 11) as [E|E].
  - rewrite E. reflexivity.
  - change (1 mod 12)%Z with 1%Z. apply Z.mod_small. lia.
Qed.

Lemma tick_hms (t : walltime) : walltime_ok t ->
  hms (tick t) = (hms t + 1 - (if (getHours t mod 12 =? 11) && (getMinutes t =? 59)
                                  && (getSeconds t =? 59) then 43200 else 0))%Z.
Proof.
  intros (Hh & Hm & Hs). unfold tick, hms.
  destruct (Z.ltb_spec (getSeconds t) 59); cbn [getHours getMinutes getSeconds].
  - replace (getSeconds t =? 59)%Z with false by (symmetry; apply Z.eqb_neq; lia).
    rewrite andb_false_r. lia.
  - destruct (Z.ltb_spec (getMinutes t) 59); cbn [getHours getMinutes getSeconds].
    + replace (getMinutes t =? 59)%Z with false by (symmetry; apply Z.eqb_neq; lia).
      rewrite andb_false_r, andb_false_l. lia.
    + replace (getMinutes t =? 59)%Z with true by (symmetry; apply Z.eqb_eq; lia).
      replace (getSeconds t =? 59)%Z with true by (symmetry; apply Z.eqb_eq; lia).
      destruct (Z.ltb_spec (getHours t) 23).
      * rewrite mod12_succ. destruct (Z.eqb_spec (getHours t mod 12) 11);
          cbn [andb getHours getMinutes getSeconds]; lia.
      * replace (getHours t) with 23%Z by lia.
        change (23 mod 12 =? 11)%Z with true. cbn [andb getHours getMinutes getSeconds].
        change (0 mod 12)%Z with 0%Z. change (23 mod 12)%Z with 11%Z. lia.
Qed.

Lemma tick_ms (t : walltime) : walltime_ok t ->
  ms (tick t) = (ms t + 1 - (if (getMinutes t =? 59) && (getSeconds t =? 59)
                             then 3600 else 0))%Z.
Proof.
  intros (Hh & Hm & Hs). unfold tick, ms.
  destruct (Z.ltb_spec (getSeconds t) 59); cbn [getHours getMinutes getSeconds].
  - replace (getSeconds t =? 59)%Z with false by (symmetry; apply Z.eqb_neq; lia).
    rewrite andb_false_r. lia.
  - replace (getSeconds t =? 59)%Z with true by (symmetry; apply Z.eqb_eq; lia).
    destruct (Z.ltb_spec (getMinutes t) 59); destruct (Z.eqb_spec (getMinutes t) 59);
      cbn [andb getHours getMinutes getSeconds]; lia.
Qed.

Lemma tick_seconds (t : walltime) : walltime_ok t ->
  getSeconds (tick t) = (getSeconds t + 1 - (if getSeconds t =? 59 then 60 else 0))%Z.
Proof.
  intros (Hh & Hm & Hs). unfold tick.
  destruct (Z.ltb_spec (getSeconds t) 59), (Z.eqb_spec (getSeconds t) 59);
    try destruct (Z.ltb_spec (getMinutes t) 59); try destruct (Z.ltb_spec (getHours t) 23);
    cbn [getHours getMinutes getSeconds]; lia.
Qed.

Lemma hours_value_bounds (t : walltime) : walltime_ok t -> 0 <= hours_value t < 12.
Proof.
  intros Hok. rewrite hours_value_hms by exact Hok.
  pose proof (hms_range t Hok) as Hr. rewrite !Zle_Qle, !Zlt_Qlt in Hr. q_push. lra.
Qed.

(** C24: the analog hands stay on the dial: for a valid wall time the
    hour value is in [0, 12), the minute value in [0, 60) and the
    seconds in [0, 60), so the angles are in [0, 2 pi). *)
Theorem hand_values_range (t : walltime) : walltime_ok t ->
  0 <= hours_value t < 12 /\ 0 <= minutes_value t < 60 /\ 0 <= seconds_value t < 60.
Proof.
  intros Hok. split; [exact (hours_value_bounds t Hok)|].
  rewrite minutes_value_ms by exact Hok. destruct Hok as (_ & Hm & Hs).
  unfold seconds_value, ms.
  rewrite !Zle_Qle in Hm, Hs. q_push. split; lra.
Qed.

(** C7: one tick of the clock moves every hand forward by its fixed
    step: the second hand by pi/30, the minute hand by pi/1800, the
    hour hand by pi/21600, and the only jumps are the full-turn wraps
    at 59 seconds, at 59:59 and at 11:59:59. *)
Theorem tick_hands_advance (t : walltime) : walltime_ok t ->
  second_angle (tick t) == second_angle t + (1 # 30)
    - (if Z.eqb (getSeconds t) 59 then 2 else 0) /\
  minute_angle (tick t) == minute_angle t + (1 # 1800)
    - (if Z.eqb (getMinutes t) 59 && Z.eqb (getSeconds t) 59 then 2 else 0) /\
  hour_angle (tick t) == hour_angle t + (1 # 21600)
    - (if Z.eqb (getHours t mod 12) 11 && Z.eqb (getMinutes t) 59 && Z.eqb (getSeconds t) 59
       then 2 else 0).
Proof.
  intros Hok. unfold second_angle, minute_angle, hour_angle, seconds_value.
  rewrite !minutes_value_ms, !hours_value_hms by (auto using tick_ok).
  rewrite tick_seconds, tick_ms, tick_hms by exact Hok.
  repeat split;
    match goal with |- context [if ?c then _ else _] => destruct c end; q_push; lra.
Qed.

(** ** The LED ring *)

Lemma minute_pos_eq (t : walltime) : walltime_ok t -> minute_pos t = getMinutes t.
Proof.
  intros (_ & _ & Hs). unfold minute_pos, minutes_value. apply Qfloor_int_plus;
    rewrite !Zle_Qle in Hs; destruct Hs as [H0 H1]; q_consts; lra.
Qed.

Lemma hour_index (t : walltime) : walltime_ok t ->
  Qfloor (hour_pos t) = (5 * (getHours t mod 12) + getMinutes t / 12)%Z.
Proof.
  intros Hok. destruct (hours_value_bounds t Hok) as [H0 H1].
  unfold hour_pos. rewrite (Qfloor_comp _ (inject_Z (hms t) / inject_Z 720)).
  - rewrite <- Zdiv_Qdiv. destruct Hok as (_ & Hm & Hs). unfold hms.
    set (r := (getHours t mod 12)%Z).
    replace (3600 * r + 60 * getMinutes t + getSeconds t)%Z
      with (r * 5 * 720 + (getMinutes t * 60 + getSeconds t))%Z by ring.
    rewrite Z.div_add_l by lia. f_equal; [ring|].
    change 720%Z with (60 * 12)%Z. rewrite <- Z.div_div by lia.
    rewrite Z.div_add_l by lia. rewrite (Z.div_small (getSeconds t)) by lia.
    rewrite Z.add_0_r. reflexivity.
  - rewrite jsmod_small by lra. rewrite hours_value_hms by exact Hok. q_consts. field.
Qed.

(** C10: the LED dots, dot by dot: dot [i] is lit at full brightness
    when [i] is at most the current second, otherwise it shows the
    minute's, then the hour's, then the base brightness; it takes the
    accent colour exactly when it is the minute dot or the hour dot
    [5 * (h mod 12) + m / 12]. *)
Theorem led_dot_spec (base accent : color) (t : walltime) (i : Z) : walltime_ok t ->
  let hour_dot := (5 * (getHours t mod 12) + getMinutes t / 12)%Z in
  led_dot base accent t i =
  (if Z.eqb i (getMinutes t) || Z.eqb i hour_dot then accent else base,
   if (i <=? getSeconds t)%Z then litAlpha
   else if Z.eqb i (getMinutes t) then minuteAlpha
   else if Z.eqb i hour_dot then hourAlpha else baseAlpha).
Proof.
  intros Hok hour_dot. unfold led_dot. rewrite minute_pos_eq, hour_index by exact Hok.
  fold hour_dot.
  destruct (i <=? getSeconds t)%Z, (Z.eqb i (getMinutes t)), (Z.eqb i hour_dot); reflexivity.
Qed.

(** The brightness of dot [i] alone. *)
Lemma led_dot_alpha (base accent : color) (t : walltime) (i : Z) : walltime_ok t ->
  snd (led_dot base accent t i) =
  if (i <=? getSeconds t)%Z then litAlpha
  else if Z.eqb i (getMinutes t) then minuteAlpha
  else if Z.eqb i (5 * (getHours t mod 12) + getMinutes t / 12)%Z then hourAlpha
  else baseAlpha.
Proof.
  intros Hok. unfold led_dot. rewrite minute_pos_eq, hour_index by exact Hok.
  destruct (i <=? getSeconds t)%Z, (Z.eqb i (getMinutes t)),
    (Z.eqb i (5 * (getHours t mod 12) + getMinutes t / 12)); reflexivity.
Qed.

Lemma count_upto (s : Z) (n : nat) : (0 <= s)%Z ->
  List.length (filter (fun i => (i <=? s)%Z) (map Z.of_nat (seq 0 n)))
  = Nat.min n (S (Z.to_nat s)).
Proof.
  intros Hs. induction n as [|n IH]; [reflexivity|].
  rewrite seq_S, map_app, filter_app, length_app, IH. cbn [map filter Nat.add].
  destruct (Z.leb_spec (Z.of_nat n) s); cbn [List.length]; lia.
Qed.

(** C25: the seconds accumulate: exactly [s + 1] of the sixty dots (dots
    0 to [s]) are drawn at full brightness. *)
Theorem led_lit_count (base accent : color) (t : walltime) : walltime_ok t ->
  List.length (filter (fun i => Qeq_bool (snd (led_dot base accent t i)) litAlpha) dot_indices)
  = S (Z.to_nat (getSeconds t)).
Proof.
  intros Hok. pose proof Hok as (_ & _ & Hs).
  rewrite (filter_ext (fun i => Qeq_bool (snd (led_dot base accent t i)) litAlpha)
                      (fun i => (i <=? getSeconds t)%Z)).
  - unfold dot_indices. rewrite count_upto by lia. lia.
  - intros i. rewrite led_dot_alpha by exact Hok.
    destruct (i <=? getSeconds t)%Z; [reflexivity|].
    destruct (Z.eqb i (getMinutes t)); [reflexivity|].
    destruct (Z.eqb i (5 * (getHours t mod 12) + getMinutes t / 12)); reflexivity.
Qed.

(** ** The painters and the Cairo context *)

Section PainterLemmas.
Context `{T : Trig}.

Lemma analog_body_no_stack (tc hc : jsstr) (now : walltime) (w h : Q) :
  no_stack (analog_body tc hc now w h) = true.
Proof.
  unfold analog_body, hour_ticks, hand. repeat apply no_stack_app; reflexivity.
Qed.

Lemma led_body_no_stack (tc hc ct wc : jsstr) (now : walltime) (w h : Q) :
  no_stack (led_body tc hc ct wc now w h) = true.
Proof.
  assert (Hd : forall b a r d, no_stack (led_dots b a now r d) = true).
  { intros. apply no_stack_flat_map. intros i. destruct (led_dot _ _ _ _). reflexivity. }
  unfold led_body. apply no_stack_app; [reflexivity|].
  apply no_stack_app; [apply Hd | apply drawSevenSegmentText_no_stack].
Qed.

(** C11: both painters hand the Cairo context back as they got it: from
    a context without error, running [_paintAnalogClock] or
    [_paintLedClock] leaves the status, the graphics state (source,
    line width, translation) and the save stack unchanged. *)
Theorem painters_restore_context (tc hc ct wc : jsstr) (now : walltime) (w h : Q)
  (st : cstate) : ok st = true ->
  (let sa := run (paintAnalogClock tc hc now w h) st in
   ok sa = true /\ gs sa = gs st /\ saved sa = saved st) /\
  (let sl := run (paintLedClock tc hc ct wc now w h) st in
   ok sl = true /\ gs sl = gs st /\ saved sl = saved st).
Proof.
  intros Hok. split; apply save_restore_bracket; try exact Hok; apply no_stack_balanced.
  - apply analog_body_no_stack.
  - apply led_body_no_stack.
Qed.

End PainterLemmas.

(** ** An executable [Trig] *)

Lemma clamp_unit_bound (q : Q) : -1 <= clamp_unit q <= 1.
Proof.
  unfold clamp_unit. split; [apply Q.le_max_l|].
  apply Q.max_lub; [lra | apply Q.le_min_l].
Qed.

#[export] Instance trig_bhaskara : Trig := {
  sin_pi q := clamp_unit (sin_approx q);
  cos_pi q := clamp_unit (sin_approx (q + (1 # 2)));
  sin_pi_bound q := clamp_unit_bound (sin_approx q);
  cos_pi_bound q := clamp_unit_bound (sin_approx (q + (1 # 2))) }.

(** ** Witnesses *)

Lemma hand_values_range_witness :
  walltime_ok (mk_walltime 23 59 59) /\
  0 <= hours_value (mk_walltime 23 59 59) < 12 /\
  0 <= minutes_value (mk_walltime 23 59 59) < 60 /\
  0 <= seconds_value (mk_walltime 23 59 59) < 60.
Proof.
  assert (H : walltime_ok (mk_walltime 23 59 59)) by (unfold walltime_ok; cbn; lia).
  split; [exact H | apply hand_values_range, H].
Defined.

Lemma tick_hands_advance_witness :
  let t := mk_walltime 23 59 59 in
  walltime_ok t /\
  second_angle (tick t) == second_angle t + (1 # 30)
    - (if Z.eqb (getSeconds t) 59 then 2 else 0) /\
  minute_angle (tick t) == minute_angle t + (1 # 1800)
    - (if Z.eqb (getMinutes t) 59 && Z.eqb (getSeconds t) 59 then 2 else 0) /\
  hour_angle (tick t) == hour_angle t + (1 # 21600)
    - (if Z.eqb (getHours t mod 12) 11 && Z.eqb (getMinutes t) 59 && Z.eqb (getSeconds t) 59
       then 2 else 0).
Proof.
  intros t. assert (H : walltime_ok t) by (unfold walltime_ok; cbn; lia).
  split; [exact H | apply tick_hands_advance, H].
Defined.

Lemma led_dot_spec_witness :
  let base := mk_color (JFin 1) (JFin 0) (JFin 0) (JFin 1) in
  let accent := mk_color (JFin 1) (JFin (1 # 5)) (JFin (1 # 5)) (JFin 1) in
  let t := mk_walltime 10 25 30 in
  walltime_ok t /\
  led_dot base accent t 52 =
  (if Z.eqb 52 (getMinutes t) || Z.eqb 52 (5 * (getHours t mod 12) + getMinutes t / 12)
   then accent else base,
   if (52 <=? getSeconds t)%Z then litAlpha
   else if Z.eqb 52 (getMinutes t) then minuteAlpha
   else if Z.eqb 52 (5 * (getHours t mod 12) + getMinutes t / 12) then hourAlpha
   else baseAlpha).
Proof.
  intros base accent t. assert (H : walltime_ok t) by (unfold walltime_ok; cbn; lia).
  split; [exact H | apply (led_dot_spec base accent t 52 H)].
Defined.

Lemma led_lit_count_witness :
  let base := mk_color (JFin 1) (JFin 0) (JFin 0) (JFin 1) in
  let t := mk_walltime 10 25 30 in
  walltime_ok t /\
  List.length (filter (fun i => Qeq_bool (snd (led_dot base base t i)) litAlpha) dot_indices)
  = S (Z.to_nat (getSeconds t)).
Proof.
  intros base t. assert (H : walltime_ok t) by (unfold walltime_ok; cbn; lia).
  split; [exact H | apply (led_lit_count base base t H)].
Defined.

Lemma painters_restore_context_witness :
  ok init_state = true /\
  (let sa := run (paintAnalogClock (js:"rgba(0,255,0,1)") (js:"red") (mk_walltime 10 25 30)
                    200 200) init_state in
   ok sa = true /\ gs sa = gs init_state /\ saved sa = saved init_state) /\
  (let sl := run (paintLedClock (js:"rgba(0,255,0,1)") (js:"red") (js:"10:25") []
                    (mk_walltime 10 25 30) 200 200) init_state in
   ok sl = true /\ gs sl = gs init_state /\ saved sl = saved init_state).
Proof.
  split; [reflexivity | apply painters_restore_context; reflexivity].
Defined.

End ClockFace.
