(* ===== verification/Widget.v ===== *)
(** The widget itself, [ModifiedClock] (ModifiedClock.js, lines
    19-589): the settings it reads, the CSS it builds for its four
    labels, the construction in [_init] (which children, in which
    order, the diameter of the drawn clock, the signal connections,
    the idle watch and the 1-second timeout), [_updateClock],
    [_updateHint], the callbacks those registrations run, and
    [destroy].  The widget's fields are the record [widget]; each
    callback is an event handled by [handle], which runs only while the
    registration that delivers it is live.  The host's date formatting
    ([Shell.util_translate_time_string], [formatDateWithCFormatString])
    and its notion of a date are parameters of the section, and so is
    [Config.PACKAGE_VERSION], from which [SHELL_VERSION] selects the
    box and seat APIs.  The theorems: what [_init] builds, the shape
    of the children, the hint's invariant and the way the time is shown
    (the label, or the one drawing area [_analogArea] or [_ledArea],
    each with its own repaints) over every reachable state, that every
    tick refreshes the clock until [destroy], what [destroy] releases
    and what it leaves behind, and the version switch. *)

From S2P Require Import Prelude JsBuiltins.
Import JsBuiltins.

Module Widget.

(** ** Settings *)

(** The five keys [<prefix>-font-color], [-font-size], [-font-family],
    [-font-weight], [-font-style] read for one label. *)
Record font_settings : Type := mk_font {
  font_color : jsstr;
  font_size : Z;
  font_family : jsstr;
  font_weight : jsstr;
  font_style : jsstr }.

Record settings : Type := mk_settings {
  custom_time_text : jsstr;
  custom_date_text : jsstr;
  command_output_font : font_settings;
  time_font : font_settings;
  date_font : font_settings;
  hint_font : font_settings;
  clock_style : jsstr;
  remove_command_output : bool;
  command : jsstr;
  remove_time : bool;
  remove_date : bool;
  remove_hint : bool }.

(** ** CSS (lines 55-74, 91-110, 126-145, 162-179) *)

Definition DEFAULT : jsstr := js:"Default".

Definition nl : jsstr := [10%Z].
Definition dq : jsstr := [34%Z].

(** The declarations shared by the four labels. *)
Definition font_css (f : font_settings) : jsstr :=
  (match font_color f with [] => [] | c => js:"color: " ++ c ++ js:";" ++ nl end)
  ++ (if Z.eqb (font_size f) 0 then []
      else js:"font-size: " ++ Z_to_jsstr (font_size f) ++ js:"px;" ++ nl)
  ++ (if list_eq_dec Z.eq_dec (font_family f) DEFAULT then []
      else js:"font-family: " ++ dq ++ font_family f ++ dq ++ js:", sans-serif;" ++ nl)
  ++ (if list_eq_dec Z.eq_dec (font_weight f) DEFAULT then []
      else js:"font-weight: " ++ font_weight f ++ js:";" ++ nl)
  ++ (if list_eq_dec Z.eq_dec (font_style f) DEFAULT then []
      else js:"font-style: " ++ font_style f ++ js:";" ++ nl).

(** The command-output, time and date labels add centring and the
    width bound. *)
Definition label_css (f : font_settings) (width : Z) : jsstr :=
  font_css f ++ js:"text-align: center;" ++ nl ++ js:"max-width: " ++ Z_to_jsstr width
  ++ js:"px;".

(** The hint label gets a style only when there is something in it. *)
Definition hint_css (f : font_settings) : option jsstr :=
  match font_css f with [] => None | css => Some css end.

(** ** The widget's state *)

Inductive child : Type :=
| CommandOutputLabel
| TimeLabel
| AnalogArea (diameter : Z)
| LedArea (diameter : Z)
| DateLabel
| HintLabel.

(** What stays registered with the host and calls back into the
    widget. *)
Inductive resource : Type :=
| WallClockNotify     (** [this._wallClock.connect('notify::clock', ...)] *)
| TouchModeHandler    (** [this._seat.connectObject('notify::touch-mode', ..., this)] *)
| PowerSaveHandler    (** [this._monitorManager.connectObject('power-save-mode-changed', ..., this)] *)
| IdleWatch           (** [this._idleMonitor.add_idle_watch(...)] *)
| ClockTick.          (** [GLib.timeout_add_seconds(...)] *)

Definition resource_eqb (a b : resource) : bool :=
  match a, b with
  | WallClockNotify, WallClockNotify | TouchModeHandler, TouchModeHandler
  | PowerSaveHandler, PowerSaveHandler | IdleWatch, IdleWatch | ClockTick, ClockTick => true
  | _, _ => false
  end.

(** The registrations [connectObject(..., this)] ties to the actor and
    that [super.destroy()] therefore disconnects. *)
Definition tracked_by_actor (r : resource) : bool :=
  match r with TouchModeHandler | PowerSaveHandler => true | _ => false end.

(** The two places [_init] depends on [SHELL_VERSION]: how the box is
    made vertical (lines 27-30) and where the seat comes from (lines
    213-218). *)
Inductive box_api : Type :=
| OrientationVertical     (** [initObj.orientation = Clutter.Orientation.VERTICAL] *)
| VerticalFlag.           (** [initObj.vertical = true] *)

Inductive seat_source : Type :=
| ContextBackendSeat      (** [this.get_context().get_backend().get_default_seat()] *)
| DefaultBackendSeat.     (** [Clutter.get_default_backend().get_default_seat()] *)

Record widget : Type := mk_widget {
  w_style : jsstr;                    (** [this._clockStyle] *)
  w_children : list child;            (** [add_child] calls, in order *)
  w_css : list (child * jsstr);       (** [set_style] calls *)
  w_command_pending : bool;           (** [_createCommandText] awaiting its command *)
  w_command_text : jsstr;
  w_time_text : jsstr;                (** [this._time.text] *)
  w_date_text : jsstr;                (** [this._date.text] *)
  w_hint_text : jsstr;                (** [this._hint.text] *)
  w_hint_opacity : Z;                 (** [this._hint.opacity] (target of the easing) *)
  w_current_time_text : jsstr;        (** [this._currentTimeText] *)
  w_custom_time : jsstr;              (** [this._customTimeText] *)
  w_custom_date : jsstr;              (** [this._customDateText] *)
  w_analog_area : bool;               (** [this._analogArea] is set *)
  w_analog_repaints : nat;            (** [queue_repaint] calls on [this._analogArea] *)
  w_led_area : bool;                  (** [this._ledArea] is set *)
  w_led_repaints : nat;               (** [queue_repaint] calls on [this._ledArea] *)
  w_live : list resource;             (** registrations not yet removed *)
  w_idle_removals : nat;              (** [remove_watch] calls *)
  w_tick_id : bool;                   (** [this._clockTickId] is set *)
  w_destroyed : bool;
  w_box : box_api;
  w_seat : seat_source }.

(** ** Events: the callbacks and the calls from outside *)

Section WithHost.
Context {Date : Type}.
(** [Shell.util_translate_time_string] *)
Variable translate : jsstr -> jsstr.
(** [formatDateWithCFormatString] *)
Variable formatDate : Date -> jsstr -> jsstr.

(** [Config.PACKAGE_VERSION] *)
Variable package_version : jsstr.

(** [parseInt(Config.PACKAGE_VERSION.split(' ')[0])], line 17. *)
Definition SHELL_VERSION : jsnum := parseInt (nth 0 (split 32 package_version) []).

Definition box_api_of (v : jsnum) : box_api :=
  if jsge v 48 then OrientationVertical else VerticalFlag.

Definition seat_source_of (v : jsnum) : seat_source :=
  if jsge v 48 then ContextBackendSeat else DefaultBackendSeat.

Inductive event : Type :=
| EvTick (d : Date) (clock : jsstr)            (** the 1-second timeout *)
| EvWallClock (d : Date) (clock : jsstr)       (** [notify::clock] *)
| EvTouchMode (touch : bool)                   (** [notify::touch-mode] *)
| EvPowerSave                                  (** [power-save-mode-changed] *)
| EvIdle                                       (** the idle watch fires *)
| EvCommandDone (output : option jsstr)        (** [execCommunicate] settles *)
| EvDestroy.                                   (** [destroy()] *)

Definition swipe_msg : jsstr := js:"Swipe up to unlock".
Definition click_msg : jsstr := js:"Click or press a key to unlock".
Definition command_error_msg : jsstr := js:"Sorry Command Output has thrown error".
Definition analog_style : jsstr := js:"analog".
Definition led_style : jsstr := js:"led".
Definition default_date_format : jsstr := js:"%A %B %-d".

Definition str_eqb (a b : jsstr) : bool := if list_eq_dec Z.eq_dec a b then true else false.

(** Lines 255-263: a format when the custom text starts with [%], the
    custom text itself when it is not empty, the wall clock otherwise. *)
Definition time_text_of (custom : jsstr) (d : Date) (clock : jsstr) : jsstr :=
  if startsWith custom js:"%" then formatDate d (translate custom)
  else match custom with [] => trim clock | _ => custom end.

(** Lines 276-284. *)
Definition date_text_of (custom : jsstr) (d : Date) : jsstr :=
  if startsWith custom js:"%" then formatDate d (translate custom)
  else match custom with [] => formatDate d (translate default_date_format) | _ => custom end.

Definition set_current_time (w : widget) (tt : jsstr) : widget :=
  mk_widget (w_style w) (w_children w) (w_css w) (w_command_pending w) (w_command_text w)
    (w_time_text w) (w_date_text w) (w_hint_text w) (w_hint_opacity w) tt
    (w_custom_time w) (w_custom_date w) (w_analog_area w) (w_analog_repaints w) (w_led_area w) (w_led_repaints w) (w_live w)
    (w_idle_removals w) (w_tick_id w) (w_destroyed w) (w_box w) (w_seat w).

Definition set_time_text (w : widget) (tt : jsstr) : widget :=
  mk_widget (w_style w) (w_children w) (w_css w) (w_command_pending w) (w_command_text w)
    tt (w_date_text w) (w_hint_text w) (w_hint_opacity w) (w_current_time_text w)
    (w_custom_time w) (w_custom_date w) (w_analog_area w) (w_analog_repaints w) (w_led_area w) (w_led_repaints w) (w_live w)
    (w_idle_removals w) (w_tick_id w) (w_destroyed w) (w_box w) (w_seat w).

Definition set_date_text (w : widget) (dt : jsstr) : widget :=
  mk_widget (w_style w) (w_children w) (w_css w) (w_command_pending w) (w_command_text w)
    (w_time_text w) dt (w_hint_text w) (w_hint_opacity w) (w_current_time_text w)
    (w_custom_time w) (w_custom_date w) (w_analog_area w) (w_analog_repaints w) (w_led_area w) (w_led_repaints w) (w_live w)
    (w_idle_removals w) (w_tick_id w) (w_destroyed w) (w_box w) (w_seat w).

(** [this._analogArea?.queue_repaint()]: nothing when there is no
    analog area. *)
Definition queue_analog_repaint (w : widget) : widget :=
  mk_widget (w_style w) (w_children w) (w_css w) (w_command_pending w) (w_command_text w)
    (w_time_text w) (w_date_text w) (w_hint_text w) (w_hint_opacity w) (w_current_time_text w)
    (w_custom_time w) (w_custom_date w) (w_analog_area w)
    (if w_analog_area w then S (w_analog_repaints w) else w_analog_repaints w)
    (w_led_area w) (w_led_repaints w) (w_live w)
    (w_idle_removals w) (w_tick_id w) (w_destroyed w) (w_box w) (w_seat w).

(** [this._ledArea?.queue_repaint()]. *)
Definition queue_led_repaint (w : widget) : widget :=
  mk_widget (w_style w) (w_children w) (w_css w) (w_command_pending w) (w_command_text w)
    (w_time_text w) (w_date_text w) (w_hint_text w) (w_hint_opacity w) (w_current_time_text w)
    (w_custom_time w) (w_custom_date w) (w_analog_area w) (w_analog_repaints w) (w_led_area w)
    (if w_led_area w then S (w_led_repaints w) else w_led_repaints w) (w_live w)
    (w_idle_removals w) (w_tick_id w) (w_destroyed w) (w_box w) (w_seat w).

Definition set_hint (w : widget) (text : jsstr) (opacity : Z) : widget :=
  mk_widget (w_style w) (w_children w) (w_css w) (w_command_pending w) (w_command_text w)
    (w_time_text w) (w_date_text w) text opacity (w_current_time_text w)
    (w_custom_time w) (w_custom_date w) (w_analog_area w) (w_analog_repaints w) (w_led_area w) (w_led_repaints w) (w_live w)
    (w_idle_removals w) (w_tick_id w) (w_destroyed w) (w_box w) (w_seat w).

(** [_updateClock()], lines 253-285; [d] is [new Date()] and [clock]
    is [this._wallClock.clock]. *)
Definition updateClock (w : widget) (d : Date) (clock : jsstr) : widget :=
  let tt := time_text_of (w_custom_time w) d clock in
  let w1 := set_current_time w tt in
  let w2 := if str_eqb (w_style w) analog_style then queue_analog_repaint w1
            else if str_eqb (w_style w) led_style then queue_led_repaint w1
            else set_time_text w1 tt in
  set_date_text w2 (date_text_of (w_custom_date w) d).

(** [_updateHint()], lines 287-291. *)
Definition updateHint (w : widget) (touch : bool) : widget :=
  set_hint w (if touch then swipe_msg else click_msg) (w_hint_opacity w).

(** [_createAnalogClock(size)], lines 293-312: a square drawing area
    of side [max(180, 2 * size)], whose [repaint] handler runs
    [_paintAnalogClock] on its surface (see [Screen]). *)
Definition createAnalogClock (size : Z) : child := AnalogArea (Z.max 180 (size * 2)).

(** [_createLedClock(size)], lines 314-333. *)
Definition createLedClock (size : Z) : child := LedArea (Z.max 200 (size * 2)).

(** Lines 192-202: the drawn clock or the time label. *)
Definition time_child (s : settings) (size : Z) : list child :=
  if str_eqb (clock_style s) analog_style then [createAnalogClock size]
  else if str_eqb (clock_style s) led_style then [createLedClock size]
  else [TimeLabel].

(** [_init(settings, width)], lines 21-241.  [size] is the variable of
    line 41 as it stands at line 194: its last assignment is the hint
    font size (line 157).  [touch] is the seat's [touch_mode]. *)
Definition init (s : settings) (width : Z) (d : Date) (clock : jsstr) (touch : bool) : widget :=
  let size := font_size (hint_font s) in
  let with_cmd := negb (remove_command_output s) && negb (str_eqb (command s) []) in
  let children :=
    (if with_cmd then [CommandOutputLabel] else [])
    ++ (if remove_time s then [] else time_child s size)
    ++ (if remove_date s then [] else [DateLabel])
    ++ (if remove_hint s then [] else [HintLabel]) in
  let css :=
    [(CommandOutputLabel, label_css (command_output_font s) width);
     (TimeLabel, label_css (time_font s) width);
     (DateLabel, label_css (date_font s) width)]
    ++ match hint_css (hint_font s) with Some c => [(HintLabel, c)] | None => [] end in
  let analog := negb (remove_time s) && str_eqb (clock_style s) analog_style in
  let led := negb (remove_time s) && negb (str_eqb (clock_style s) analog_style)
             && str_eqb (clock_style s) led_style in
  let w0 := mk_widget (clock_style s) children css with_cmd [] [] [] [] 0 []
              (custom_time_text s) (custom_date_text s)
              analog (if analog then 1%nat else 0%nat) led (if led then 1%nat else 0%nat)
              [WallClockNotify; TouchModeHandler; PowerSaveHandler; IdleWatch; ClockTick]
              0 true false (box_api_of SHELL_VERSION) (seat_source_of SHELL_VERSION) in
  updateHint (updateClock w0 d clock) touch.

Definition is_live (w : widget) (r : resource) : bool := existsb (resource_eqb r) (w_live w).

(** [destroy()], lines 581-588: the idle watch is removed, the timeout
    is removed once and its id cleared, and [super.destroy()]
    disconnects what [connectObject] tied to the actor. *)
Definition destroy (w : widget) : widget :=
  let live1 := filter (fun r => negb (resource_eqb r IdleWatch)) (w_live w) in
  let live2 := if w_tick_id w then filter (fun r => negb (resource_eqb r ClockTick)) live1
               else live1 in
  let live3 := filter (fun r => negb (tracked_by_actor r)) live2 in
  mk_widget (w_style w) (w_children w) (w_css w) (w_command_pending w) (w_command_text w)
    (w_time_text w) (w_date_text w) (w_hint_text w) (w_hint_opacity w) (w_current_time_text w)
    (w_custom_time w) (w_custom_date w) (w_analog_area w) (w_analog_repaints w) (w_led_area w) (w_led_repaints w) live3
    (S (w_idle_removals w)) false true (w_box w) (w_seat w).

(** The argument vector [_createCommandText] hands to
    [execCommunicate] (line 245): the command split at every space. *)
Definition command_argv (s : settings) : list jsstr := split 32 (command s).

(** [_createCommandText()], lines 243-251, when its promise settles. *)
Definition command_done (w : widget) (output : option jsstr) : widget :=
  mk_widget (w_style w) (w_children w) (w_css w) false
    (match output with Some t => t | None => command_error_msg end)
    (w_time_text w) (w_date_text w) (w_hint_text w) (w_hint_opacity w) (w_current_time_text w)
    (w_custom_time w) (w_custom_date w) (w_analog_area w) (w_analog_repaints w) (w_led_area w) (w_led_repaints w) (w_live w)
    (w_idle_removals w) (w_tick_id w) (w_destroyed w) (w_box w) (w_seat w).

(** Each event runs its callback when the registration that delivers
    it is live: the timeout (lines 234-237), the wall clock (line
    211), the touch mode (220-221), the power-save signal (224-225),
    the idle watch (228-233, easing the hint to full opacity). *)
Definition handle (w : widget) (e : event) : widget :=
  match e with
  | EvTick d clock => if is_live w ClockTick then updateClock w d clock else w
  | EvWallClock d clock => if is_live w WallClockNotify then updateClock w d clock else w
  | EvTouchMode t => if is_live w TouchModeHandler then updateHint w t else w
  | EvPowerSave => if is_live w PowerSaveHandler then set_hint w (w_hint_text w) 0 else w
  | EvIdle => if is_live w IdleWatch then set_hint w (w_hint_text w) 255 else w
  | EvCommandDone out => if w_command_pending w then command_done w out else w
  | EvDestroy => destroy w
  end.

(** The states a widget can be in: built by [_init], then any
    sequence of events. *)
Inductive reachable : widget -> Prop :=
| reach_init s width d clock touch : reachable (init s width d clock touch)
| reach_step w e : reachable w -> reachable (handle w e).

(** ** Invariants *)

Definition hint_ok (w : widget) : Prop :=
  (w_hint_opacity w = 0%Z \/ w_hint_opacity w = 255%Z) /\
  (w_hint_text w = swipe_msg \/ w_hint_text w = click_msg).

Definition all_registrations : list resource :=
  [WallClockNotify; TouchModeHandler; PowerSaveHandler; IdleWatch; ClockTick].

(** Before [destroy]: everything registered, nothing removed. *)
Definition lifecycle_ok (w : widget) : Prop :=
  w_destroyed w = false -> w_live w = all_registrations /\ w_idle_removals w = 0%nat /\
                           w_tick_id w = true.

(** How the time is shown (lines 192-202 and 264-273): the time label
    is written only in the text style, where it mirrors
    [_currentTimeText]; each drawing area exists only for its own
    style, and an area that does not exist has never been repainted. *)
Definition display_ok (w : widget) : Prop :=
  w_time_text w = (if str_eqb (w_style w) analog_style || str_eqb (w_style w) led_style
                   then [] else w_current_time_text w) /\
  (w_analog_area w = true -> w_style w = analog_style) /\
  (w_led_area w = true -> w_style w = led_style) /\
  (w_analog_area w = false -> w_analog_repaints w = 0%nat) /\
  (w_led_area w = false -> w_led_repaints w = 0%nat).

Definition is_time_child (c : child) : bool :=
  match c with TimeLabel | AnalogArea _ | LedArea _ => true | _ => false end.

(** The children of the box as [_init] adds them (lines 188-208): the
    command-output label, one of the three time variants, the date
    label and the hint label, each at most once and in that order. *)
Definition children_ok (cs : list child) : Prop :=
  exists a b c e, cs = a ++ b ++ c ++ e /\
    (a = [] \/ a = [CommandOutputLabel]) /\
    (b = [] \/ exists t, b = [t] /\ is_time_child t = true) /\
    (c = [] \/ c = [DateLabel]) /\ (e = [] \/ e = [HintLabel]).

(** ** Lemmas *)

Lemma updateClock_frame (w : widget) (d : Date) (clock : jsstr) :
  let w' := updateClock w d clock in
  w_hint_text w' = w_hint_text w /\ w_hint_opacity w' = w_hint_opacity w /\
  w_live w' = w_live w /\ w_idle_removals w' = w_idle_removals w /\
  w_tick_id w' = w_tick_id w /\ w_destroyed w' = w_destroyed w /\
  w_children w' = w_children w.
Proof.
  unfold updateClock. destruct (str_eqb (w_style w) analog_style), (str_eqb (w_style w) led_style);
    cbn; repeat split.
Qed.

Lemma updateHint_frame (w : widget) (touch : bool) :
  let w' := updateHint w touch in
  w_hint_opacity w' = w_hint_opacity w /\ w_live w' = w_live w /\
  w_idle_removals w' = w_idle_removals w /\ w_tick_id w' = w_tick_id w /\
  w_destroyed w' = w_destroyed w /\ w_children w' = w_children w /\
  (w_hint_text w' = swipe_msg \/ w_hint_text w' = click_msg).
Proof. cbn. repeat split. destruct touch; auto. Qed.

Lemma event_eq_destroy (e : event) : {e = EvDestroy} + {e <> EvDestroy}.
Proof. destruct e; (left; reflexivity) || (right; discriminate). Qed.

Lemma handle_not_destroy (w : widget) (e : event) :
  e <> EvDestroy ->
  w_live (handle w e) = w_live w /\ w_idle_removals (handle w e) = w_idle_removals w /\
  w_tick_id (handle w e) = w_tick_id w /\ w_destroyed (handle w e) = w_destroyed w.
Proof.
  intros He. destruct e as [d c | d c | t | | | out |]; cbn [handle]; try congruence.
  - destruct (is_live w ClockTick); [|auto].
    destruct (updateClock_frame w d c) as (_ & _ & ? & ? & ? & ? & _). auto.
  - destruct (is_live w WallClockNotify); [|auto].
    destruct (updateClock_frame w d c) as (_ & _ & ? & ? & ? & ? & _). auto.
  - destruct (is_live w TouchModeHandler); [|auto].
    destruct (updateHint_frame w t) as (_ & ? & ? & ? & ? & _). auto.
  - destruct (is_live w PowerSaveHandler); cbn; auto.
  - destruct (is_live w IdleWatch); cbn; auto.
  - destruct (w_command_pending w); cbn; auto.
Qed.

Lemma str_eqb_true (a b : jsstr) : str_eqb a b = true -> a = b.
Proof. unfold str_eqb. destruct (list_eq_dec Z.eq_dec a b); [auto | discriminate]. Qed.

Lemma analog_led_distinct (x : jsstr) :
  str_eqb x analog_style = true -> str_eqb x led_style = false.
Proof. intros H. apply str_eqb_true in H. subst. reflexivity. Qed.

Lemma updateClock_display (w : widget) (d : Date) (clock : jsstr) :
  display_ok w -> display_ok (updateClock w d clock).
Proof.
  intros (Ht & Ha & Hl & Ha0 & Hl0). unfold updateClock, display_ok.
  destruct (str_eqb (w_style w) analog_style) eqn:Ea;
    [pose proof (analog_led_distinct _ Ea) as El
    | destruct (str_eqb (w_style w) led_style) eqn:El];
    cbn -[analog_style led_style str_eqb]; rewrite Ea, El in *; cbn [orb] in *;
    repeat split; auto; intros H; rewrite H; auto.
Qed.

Lemma handle_display (w : widget) (e : event) : display_ok w -> display_ok (handle w e).
Proof.
  intros H. destruct e as [d c | d c | t | | | out |]; cbn [handle];
    repeat match goal with |- context [if ?b then _ else _] => destruct b end;
    try apply updateClock_display; try exact H; exact H.
Qed.

Lemma updateClock_areas (w : widget) (d : Date) (clock : jsstr) :
  w_analog_area (updateClock w d clock) = w_analog_area w /\
  w_led_area (updateClock w d clock) = w_led_area w.
Proof.
  unfold updateClock.
  destruct (str_eqb (w_style w) analog_style), (str_eqb (w_style w) led_style); split; reflexivity.
Qed.

Lemma handle_areas (w : widget) (e : event) :
  w_analog_area (handle w e) = w_analog_area w /\ w_led_area (handle w e) = w_led_area w.
Proof.
  destruct e as [d c | d c | t | | | out |]; cbn [handle];
    repeat match goal with |- context [if ?b then _ else _] => destruct b end;
    try apply updateClock_areas; split; reflexivity.
Qed.

Lemma init_areas (s : settings) (width : Z) (d : Date) (clock : jsstr) (touch : bool) :
  w_analog_area (init s width d clock touch) =
    negb (remove_time s) && str_eqb (clock_style s) analog_style /\
  w_led_area (init s width d clock touch) =
    negb (remove_time s) && negb (str_eqb (clock_style s) analog_style)
    && str_eqb (clock_style s) led_style.
Proof.
  unfold init. cbv zeta. cbn [updateHint set_hint w_analog_area w_led_area].
  match goal with |- w_analog_area (updateClock ?w0 _ _) = _ /\ _ =>
    destruct (updateClock_areas w0 d clock) as [-> ->] end.
  split; reflexivity.
Qed.

Lemma handle_children (w : widget) (e : event) : w_children (handle w e) = w_children w.
Proof.
  destruct e as [d c | d c | t | | | out |]; cbn [handle].
  - destruct (is_live w ClockTick); [apply (updateClock_frame w d c) | reflexivity].
  - destruct (is_live w WallClockNotify); [apply (updateClock_frame w d c) | reflexivity].
  - destruct (is_live w TouchModeHandler); [apply (updateHint_frame w t) | reflexivity].
  - destruct (is_live w PowerSaveHandler); reflexivity.
  - destruct (is_live w IdleWatch); reflexivity.
  - destruct (w_command_pending w); reflexivity.
  - reflexivity.
Qed.

Lemma handle_customs (w : widget) (e : event) :
  w_custom_time (handle w e) = w_custom_time w /\ w_custom_date (handle w e) = w_custom_date w.
Proof.
  destruct e as [d c | d c | t | | | out |]; cbn [handle];
    repeat match goal with |- context [if ?b then _ else _] => destruct b end;
    try (unfold updateClock;
         destruct (str_eqb (w_style w) analog_style), (str_eqb (w_style w) led_style));
    split; reflexivity.
Qed.

Lemma init_fields (s : settings) (width : Z) (d : Date) (clock : jsstr) (touch : bool) :
  let w := init s width d clock touch in
  w_children w =
    (if negb (remove_command_output s) && negb (str_eqb (command s) [])
     then [CommandOutputLabel] else [])
    ++ (if remove_time s then [] else time_child s (font_size (hint_font s)))
    ++ (if remove_date s then [] else [DateLabel])
    ++ (if remove_hint s then [] else [HintLabel]) /\
  w_live w = all_registrations /\ w_idle_removals w = 0%nat /\ w_tick_id w = true /\
  w_destroyed w = false /\ w_hint_opacity w = 0%Z /\
  (w_hint_text w = swipe_msg \/ w_hint_text w = click_msg).
Proof.
  unfold init. cbv zeta.
  match goal with
  | |- context [updateHint (updateClock ?w0 _ _) _] =>
      destruct (updateHint_frame (updateClock w0 d clock) touch)
        as (Ho & Hl & Hi & Ht & Hd & Hc & Hx);
      destruct (updateClock_frame w0 d clock) as (_ & Ho' & Hl' & Hi' & Ht' & Hd' & Hc')
  end.
  rewrite Ho, Hl, Hi, Ht, Hd, Hc, Ho', Hl', Hi', Ht', Hd', Hc'. cbn. repeat split; auto.
Qed.

Lemma init_version (s : settings) (width : Z) (d : Date) (clock : jsstr) (touch : bool) :
  w_box (init s width d clock touch) = box_api_of SHELL_VERSION /\
  w_seat (init s width d clock touch) = seat_source_of SHELL_VERSION.
Proof.
  assert (Hu : forall w d c, w_box (updateClock w d c) = w_box w /\
                             w_seat (updateClock w d c) = w_seat w).
  { intros w d' c. unfold updateClock.
    destruct (str_eqb (w_style w) analog_style), (str_eqb (w_style w) led_style);
      split; reflexivity. }
  unfold init. cbv zeta. cbn [updateHint set_hint w_box w_seat].
  match goal with |- w_box (updateClock ?w0 _ _) = _ /\ _ =>
    destruct (Hu w0 d clock) as [-> ->] end.
  split; reflexivity.
Qed.

Lemma init_display (s : settings) (width : Z) (d : Date) (clock : jsstr) (touch : bool) :
  display_ok (init s width d clock touch).
Proof.
  unfold init. cbv zeta.
  match goal with |- display_ok (updateHint (updateClock ?w0 _ _) _) =>
    assert (H0 : display_ok w0) end.
  { unfold display_ok. cbn -[analog_style led_style str_eqb]. repeat split.
    - destruct (_ || _)%bool; reflexivity.
    - intros H. apply andb_prop in H as [_ H]. apply str_eqb_true, H.
    - intros H. apply andb_prop in H as [_ H]. apply str_eqb_true, H.
    - intros H. rewrite H. reflexivity.
    - intros H. rewrite H. reflexivity. }
  apply updateClock_display with (d := d) (clock := clock) in H0. exact H0.
Qed.

(** ** Theorems *)

(** C12: the drawn clock's size comes from the hint font: with the time
    shown as an analog face, [_init] adds one drawing area whose
    diameter is [max(180, 2 * hint-font-size)], whatever
    [time-font-size] says, because [size] was last assigned from
    [hint-font-size] (line 157) before line 194 reads it. *)
Theorem analog_diameter_from_hint_size (s : settings) (width : Z) (d : Date) (clock : jsstr)
  (touch : bool) :
  remove_time s = false -> clock_style s = analog_style ->
  In (AnalogArea (Z.max 180 (font_size (hint_font s) * 2)))
     (w_children (init s width d clock touch)) /\
  forall size, In (AnalogArea size) (w_children (init s width d clock touch)) ->
               size = Z.max 180 (font_size (hint_font s) * 2).
Proof.
  intros Hr Hs. destruct (init_fields s width d clock touch) as (Hc & _).
  rewrite Hc, Hr. unfold time_child, createAnalogClock. rewrite Hs.
  replace (str_eqb analog_style analog_style) with true by reflexivity.
  split.
  - apply in_or_app. right. apply in_or_app. left. left. reflexivity.
  - intros size Hin. rewrite !in_app_iff in Hin.
    destruct (_ && _)%bool, (remove_date s), (remove_hint s); cbn in Hin;
      intuition congruence.
Qed.

Lemma reachable_lifecycle (w : widget) : reachable w -> lifecycle_ok w.
Proof.
  induction 1 as [s width d clock touch | w e Hr Hl].
  - destruct (init_fields s width d clock touch) as (_ & Hl & Hi & Ht & Hd & _).
    intros _. auto.
  - destruct (event_eq_destroy e) as [-> | Hne].
    + unfold lifecycle_ok. cbn. discriminate.
    + destruct (handle_not_destroy w e Hne) as (H1 & H2 & H3 & H4).
      unfold lifecycle_ok in *. rewrite H1, H2, H3, H4. exact Hl.
Qed.

(** On a live widget the timeout runs [_updateClock]. *)
Lemma tick_live (w : widget) (d : Date) (clock : jsstr) :
  reachable w -> w_destroyed w = false ->
  w_current_time_text (handle w (EvTick d clock)) =
    time_text_of (w_custom_time w) d clock /\
  w_date_text (handle w (EvTick d clock)) = date_text_of (w_custom_date w) d.
Proof.
  intros Hr Hd. pose proof (reachable_lifecycle w Hr) as Hl.
  destruct (Hl Hd) as (Hlive & _). cbn [handle]. unfold is_live. rewrite Hlive.
  cbn [all_registrations existsb resource_eqb orb]. unfold updateClock.
  destruct (str_eqb (w_style w) analog_style), (str_eqb (w_style w) led_style);
    split; reflexivity.
Qed.

(** C9: the time is shown in exactly the chosen way: in every
    reachable state the hidden time label is written only in the text
    style, where it mirrors [_currentTimeText]; an analog or LED area
    exists only for its own style and one that does not exist was
    never repainted; and while the widget is live every timeout queues
    one repaint of exactly the area that exists. *)
Theorem time_display (w : widget) : reachable w ->
  display_ok w /\
  (w_destroyed w = false -> forall d clock,
     let w' := handle w (EvTick d clock) in
     w_analog_repaints w' =
       (if w_analog_area w then S (w_analog_repaints w) else w_analog_repaints w) /\
     w_led_repaints w' =
       (if w_led_area w then S (w_led_repaints w) else w_led_repaints w)).
Proof.
  intros Hr. assert (Hd : display_ok w).
  { induction Hr; [apply init_display | apply handle_display; assumption]. }
  split; [exact Hd|]. intros Hl d clock. cbv zeta.
  destruct (reachable_lifecycle w Hr Hl) as (Hlive & _).
  destruct Hd as (_ & Ha & Hled & _). cbn [handle]. unfold is_live. rewrite Hlive.
  cbn [all_registrations existsb resource_eqb orb]. unfold updateClock.
  destruct (str_eqb (w_style w) analog_style) eqn:Ea;
    [|destruct (str_eqb (w_style w) led_style) eqn:El];
    cbn -[analog_style led_style str_eqb].
  - destruct (w_led_area w) eqn:L; [|split; reflexivity].
    rewrite (Hled eq_refl) in Ea. discriminate Ea.
  - destruct (w_analog_area w) eqn:A; [|split; reflexivity].
    rewrite (Ha eq_refl) in Ea. discriminate Ea.
  - destruct (w_analog_area w) eqn:A; [rewrite (Ha eq_refl) in Ea; discriminate Ea|].
    destruct (w_led_area w) eqn:L; [rewrite (Hled eq_refl) in El; discriminate El|].
    split; reflexivity.
Qed.

(** C8: the hint is always in one of its two states: over every
    reachable state its opacity is 0 or 255 and its text is one of the
    two unlock messages. *)
Theorem hint_invariant (w : widget) : reachable w -> hint_ok w.
Proof.
  induction 1 as [s width d clock touch | w e Hr [Ho Ht]].
  - destruct (init_fields s width d clock touch) as (_ & _ & _ & _ & _ & Ho & Hx).
    split; auto.
  - unfold hint_ok. destruct e as [d c | d c | t | | | out |]; cbn [handle].
    + destruct (is_live w ClockTick); [|auto].
      destruct (updateClock_frame w d c) as (Hx & Hy & _). rewrite Hx, Hy. auto.
    + destruct (is_live w WallClockNotify); [|auto].
      destruct (updateClock_frame w d c) as (Hx & Hy & _). rewrite Hx, Hy. auto.
    + destruct (is_live w TouchModeHandler); [|auto].
      destruct (updateHint_frame w t) as (Hy & _ & _ & _ & _ & _ & Hx). rewrite Hy. auto.
    + destruct (is_live w PowerSaveHandler); cbn; auto.
    + destruct (is_live w IdleWatch); cbn; auto.
    + destruct (w_command_pending w); cbn; auto.
    + cbn. auto.
Qed.

(** C5: [destroy] releases the timeout, the idle watch and the two
    [connectObject] handlers, but the wall clock's [notify::clock]
    handler stays connected; [remove_watch] is called once, and a
    second [destroy] calls it again with the stale id while the
    timeout, guarded by [_clockTickId], is not removed twice. *)
Theorem destroy_releases (w : widget) : reachable w -> w_destroyed w = false ->
  let w1 := handle w EvDestroy in
  let w2 := handle w1 EvDestroy in
  w_live w1 = [WallClockNotify] /\ w_idle_removals w1 = 1%nat /\ w_destroyed w1 = true /\
  w_idle_removals w2 = 2%nat /\ w_live w2 = [WallClockNotify] /\ w_tick_id w2 = false.
Proof.
  intros Hr Hd. pose proof (reachable_lifecycle w Hr) as Hl.
  destruct (Hl Hd) as (Hlive & Hi & Ht).
  cbn [handle destroy w_live w_idle_removals w_destroyed w_tick_id].
  rewrite Hlive, Hi, Ht. repeat split.
Qed.

(** C6: after [destroy], the timeout, idle, touch-mode and power-save
    callbacks no longer reach the widget, but the wall clock's signal
    still runs [_updateClock] on the destroyed widget. *)
Theorem callbacks_after_destroy (w : widget) (d : Date) (clock : jsstr) (t : bool) :
  reachable w -> w_destroyed w = false ->
  let w' := handle w EvDestroy in
  handle w' (EvTick d clock) = w' /\ handle w' EvIdle = w' /\
  handle w' (EvTouchMode t) = w' /\ handle w' EvPowerSave = w' /\
  handle w' (EvWallClock d clock) = updateClock w' d clock.
Proof.
  intros Hr Hd. pose proof (reachable_lifecycle w Hr) as Hl.
  destruct (Hl Hd) as (Hlive & _ & Ht).
  cbn [handle]. unfold is_live.
  cbn [destroy w_live]. rewrite Hlive, Ht. repeat split.
Qed.

Lemma children_ok_one_time (cs : list child) :
  children_ok cs -> (List.length (filter is_time_child cs) <= 1)%nat.
Proof.
  intros (a & b & c & e & -> & Ha & Hb & Hc & He). rewrite !filter_app, !length_app.
  destruct Ha as [-> | ->], Hc as [-> | ->], He as [-> | ->];
    (destruct Hb as [-> | (t & -> & Ht)]; [|cbn; rewrite Ht]); cbn; lia.
Qed.

(** C13: the time is shown in exactly one way, chosen once: in every
    reachable state the box holds the children [_init] added, in the
    order command output, time, date, hint, each at most once, and at
    most one of the three time variants (label, analog face, LED
    ring). *)
Theorem children_shape (w : widget) : reachable w ->
  children_ok (w_children w) /\ (List.length (filter is_time_child (w_children w)) <= 1)%nat.
Proof.
  intros Hr. assert (H : children_ok (w_children w)).
  { induction Hr as [s width d clock touch | w e _ IH]; [|rewrite handle_children; exact IH].
    destruct (init_fields s width d clock touch) as (-> & _).
    eexists _, _, _, _. split; [reflexivity|].
    split; [destruct (_ && _)%bool; [right | left]; reflexivity|].
    split; [destruct (remove_time s); [left; reflexivity | right]|].
    { unfold time_child. destruct (str_eqb _ analog_style); [|destruct (str_eqb _ led_style)];
        eexists; split; reflexivity. }
    split; [destruct (remove_date s) | destruct (remove_hint s)];
      (left; reflexivity) || (right; reflexivity). }
  split; [exact H | apply children_ok_one_time, H].
Qed.

Lemma fold_handle_reachable (evs : list event) : forall w,
  reachable w -> reachable (fold_left handle evs w).
Proof.
  induction evs as [|e evs IH]; intros w Hr; [exact Hr|]. apply IH. constructor. exact Hr.
Qed.

Lemma fold_handle_frame (evs : list event) : forall w, ~ In EvDestroy evs ->
  w_destroyed (fold_left handle evs w) = w_destroyed w /\
  w_custom_time (fold_left handle evs w) = w_custom_time w /\
  w_custom_date (fold_left handle evs w) = w_custom_date w.
Proof.
  induction evs as [|e evs IH]; intros w Hin; [repeat split|].
  assert (He : e <> EvDestroy) by (intros ->; apply Hin; left; reflexivity).
  cbn [fold_left]. destruct (IH (handle w e)) as (H1 & H2 & H3);
    [intros H; apply Hin; right; exact H|].
  destruct (handle_not_destroy w e He) as (_ & _ & _ & Hd).
  destruct (handle_customs w e) as [Ht Hc]. rewrite H1, H2, H3, Hd, Ht, Hc. repeat split.
Qed.

(** C14: the clock keeps ticking until [destroy]: whatever sequence of
    callbacks (other than [destroy]) has run since a live state, the
    next timeout still runs [_updateClock], which shows the time text
    built from the custom text [_init] read and the current clock. *)
Theorem tick_always_refreshes (w : widget) (evs : list event) (d : Date) (clock : jsstr) :
  reachable w -> w_destroyed w = false -> ~ In EvDestroy evs ->
  let w2 := handle (fold_left handle evs w) (EvTick d clock) in
  w_current_time_text w2 = time_text_of (w_custom_time w) d clock /\
  w_date_text w2 = date_text_of (w_custom_date w) d.
Proof.
  intros Hr Hd Hin. cbv zeta.
  destruct (fold_handle_frame evs w Hin) as (H1 & H2 & H3). rewrite <- H2, <- H3.
  apply tick_live; [apply fold_handle_reachable, Hr | rewrite H1; exact Hd].
Qed.

End WithHost.

(** ** The version switch *)

(** [SHELL_VERSION] is the number the first word of the version string
    starts with, when that word is a non-negative numeral followed by
    anything that ends it ([.1], [.rc], nothing). *)
Lemma SHELL_VERSION_numeral (major : Z) (tail rest : jsstr) :
  (0 <= major)%Z -> stops_decimal tail = true -> ~ In 32%Z tail ->
  (rest = [] \/ exists r, rest = 32%Z :: r) ->
  SHELL_VERSION (Z_to_jsstr major ++ tail ++ rest) = JFin (inject_Z major).
Proof.
  intros Hm Ht Hsp Hr. unfold SHELL_VERSION.
  assert (Hw : ~ In 32%Z (Z_to_jsstr major ++ tail)).
  { rewrite in_app_iff. intros [H | H]; [revert H; apply numeral_not_in; reflexivity | tauto]. }
  rewrite app_assoc. destruct Hr as [-> | [r ->]].
  - rewrite app_nil_r, split_no_sep by exact Hw. apply parseInt_Z_to_jsstr; assumption.
  - rewrite split_app_sep by exact Hw. apply parseInt_Z_to_jsstr; assumption.
Qed.

(** C16: the version switch of [_init] (lines 17, 27-30, 213-218): for a
    version string whose first word is [major] followed by [.minor] or
    the like, the box is made vertical through [orientation] and the
    seat is taken from the actor's context exactly when
    [major >= 48]; otherwise the pre-48 API is used. *)
Theorem shell_version_switch {Date : Type} (translate : jsstr -> jsstr)
  (formatDate : Date -> jsstr -> jsstr) (major : Z) (tail rest : jsstr)
  (s : settings) (width : Z) (d : Date) (clock : jsstr) (touch : bool) :
  (0 <= major)%Z -> stops_decimal tail = true -> ~ In 32%Z tail ->
  (rest = [] \/ exists r, rest = 32%Z :: r) ->
  let w := init translate formatDate (Z_to_jsstr major ++ tail ++ rest) s width d clock touch in
  w_box w = (if (48 <=? major)%Z then OrientationVertical else VerticalFlag) /\
  w_seat w = (if (48 <=? major)%Z then ContextBackendSeat else DefaultBackendSeat).
Proof.
  intros Hm Ht Hsp Hr w. destruct (init_version translate formatDate
    (Z_to_jsstr major ++ tail ++ rest) s width d clock touch) as [Hb Hs].
  unfold w. rewrite Hb, Hs. unfold box_api_of, seat_source_of.
  rewrite SHELL_VERSION_numeral by assumption. cbn [jsge].
  change 48 with (inject_Z 48). rewrite Qle_bool_inject_Z.
  split; reflexivity.
Qed.

(** ** The hint label's style *)

Lemma Z_to_jsstr_cons (z : Z) : exists c r, Z_to_jsstr z = c :: r.
Proof. destruct (Z_to_jsstr z) as [|c r] eqn:E; [exfalso; exact (Z_to_jsstr_nonempty z E) | eauto]. Qed.

(** C26: the hint label is left without a style (line 178) exactly when
    all five of its settings are at their defaults: no colour, size 0,
    and [Default] family, weight and style. *)
Theorem hint_css_none_iff (f : font_settings) :
  hint_css f = None <->
  font_color f = [] /\ font_size f = 0%Z /\ font_family f = DEFAULT /\
  font_weight f = DEFAULT /\ font_style f = DEFAULT.
Proof.
  unfold hint_css, font_css. split.
  - destruct (font_color f) as [|c cs]; [|discriminate].
    destruct (Z.eqb_spec (font_size f) 0) as [Hs|Hs]; [|discriminate].
    destruct (list_eq_dec Z.eq_dec (font_family f) DEFAULT) as [Hf|Hf]; [|discriminate].
    destruct (list_eq_dec Z.eq_dec (font_weight f) DEFAULT) as [Hw|Hw]; [|discriminate].
    destruct (list_eq_dec Z.eq_dec (font_style f) DEFAULT) as [Ht|Ht]; [|discriminate].
    intros _. auto.
  - intros (Hc & Hs & Hf & Hw & Ht). rewrite Hc, Hs, Hf, Hw, Ht. cbn.
    destruct (list_eq_dec Z.eq_dec DEFAULT DEFAULT); [reflexivity | congruence].
Qed.

(** ** Witnesses *)

Local Abbreviation default_font := (mk_font [] 0%Z DEFAULT DEFAULT DEFAULT).

(** An analog clock with a large time font and a small hint font. *)
Local Abbreviation analog_settings :=
  (mk_settings [] [] default_font (mk_font [] 150%Z DEFAULT DEFAULT DEFAULT) default_font
    (mk_font [] 20%Z DEFAULT DEFAULT DEFAULT) analog_style false [] false false false).

Local Abbreviation sample_widget :=
  (init (Date := Z) (fun f => f) (fun _ f => f) (js:"48.1") analog_settings 400%Z 0%Z (js:" 10:25 ") false).

Lemma analog_diameter_from_hint_size_witness :
  remove_time analog_settings = false /\ clock_style analog_settings = analog_style /\
  In (AnalogArea (Z.max 180 (font_size (hint_font analog_settings) * 2)))
     (w_children sample_widget) /\
  (forall size, In (AnalogArea size) (w_children sample_widget) ->
                size = Z.max 180 (font_size (hint_font analog_settings) * 2)).
Proof.
  split; [reflexivity | split; [reflexivity |]].
  apply (analog_diameter_from_hint_size (Date := Z) (fun f => f) (fun _ f => f) (js:"48.1"));
    reflexivity.
Defined.

Lemma hint_invariant_witness :
  reachable (Date := Z) (fun f => f) (fun _ f => f) (js:"48.1") sample_widget /\ hint_ok sample_widget.
Proof.
  assert (H : reachable (Date := Z) (fun f => f) (fun _ f => f) (js:"48.1") sample_widget) by apply reach_init.
  split; [exact H | apply (hint_invariant (Date := Z) _ _ _ _ H)].
Defined.

Lemma destroy_releases_witness :
  reachable (Date := Z) (fun f => f) (fun _ f => f) (js:"48.1") sample_widget /\
  w_destroyed sample_widget = false /\
  let w1 := handle (Date := Z) (fun f => f) (fun _ f => f) sample_widget EvDestroy in
  let w2 := handle (Date := Z) (fun f => f) (fun _ f => f) w1 EvDestroy in
  w_live w1 = [WallClockNotify] /\ w_idle_removals w1 = 1%nat /\ w_destroyed w1 = true /\
  w_idle_removals w2 = 2%nat /\ w_live w2 = [WallClockNotify] /\ w_tick_id w2 = false.
Proof.
  assert (H : reachable (Date := Z) (fun f => f) (fun _ f => f) (js:"48.1") sample_widget) by apply reach_init.
  split; [exact H | split; [reflexivity | apply (destroy_releases (Date := Z) _ _ _ _ H); reflexivity]].
Defined.

Lemma callbacks_after_destroy_witness :
  reachable (Date := Z) (fun f => f) (fun _ f => f) (js:"48.1") sample_widget /\
  w_destroyed sample_widget = false /\
  let h := handle (Date := Z) (fun f => f) (fun _ f => f) in
  let w' := h sample_widget EvDestroy in
  h w' (EvTick 1%Z (js:"10:26")) = w' /\ h w' EvIdle = w' /\
  h w' (EvTouchMode true) = w' /\ h w' EvPowerSave = w' /\
  h w' (EvWallClock 1%Z (js:"10:26")) = updateClock (fun f => f) (fun _ f => f) w' 1%Z (js:"10:26").
Proof.
  assert (H : reachable (Date := Z) (fun f => f) (fun _ f => f) (js:"48.1") sample_widget) by apply reach_init.
  split; [exact H | split; [reflexivity | apply (callbacks_after_destroy (Date := Z) _ _ _ _ _ _ _ H); reflexivity]].
Defined.

Lemma children_shape_witness :
  reachable (Date := Z) (fun f => f) (fun _ f => f) (js:"48.1") sample_widget /\
  children_ok (w_children sample_widget) /\
  (List.length (filter is_time_child (w_children sample_widget)) <= 1)%nat.
Proof.
  assert (H : reachable (Date := Z) (fun f => f) (fun _ f => f) (js:"48.1") sample_widget)
    by apply reach_init.
  split; [exact H | apply (children_shape (Date := Z) _ _ _ _ H)].
Defined.

Lemma tick_always_refreshes_witness :
  reachable (Date := Z) (fun f => f) (fun _ f => f) (js:"48.1") sample_widget /\
  w_destroyed sample_widget = false /\
  ~ In (EvDestroy (Date := Z)) [EvIdle; EvTouchMode true; EvPowerSave] /\
  let w2 := handle (Date := Z) (fun f => f) (fun _ f => f)
              (fold_left (handle (Date := Z) (fun f => f) (fun _ f => f)) [EvIdle; EvTouchMode true; EvPowerSave]
                 sample_widget) (EvTick 1%Z (js:"10:26")) in
  w_current_time_text w2 = time_text_of (Date := Z) (fun f => f) (fun _ f => f) (w_custom_time sample_widget)
                             1%Z (js:"10:26") /\
  w_date_text w2 = date_text_of (Date := Z) (fun f => f) (fun _ f => f) (w_custom_date sample_widget) 1%Z.
Proof.
  assert (H : reachable (Date := Z) (fun f => f) (fun _ f => f) (js:"48.1") sample_widget)
    by apply reach_init.
  assert (Hin : ~ In (EvDestroy (Date := Z)) [EvIdle; EvTouchMode true; EvPowerSave])
    by (simpl; intuition discriminate).
  split; [exact H | split; [reflexivity | split; [exact Hin |]]].
  apply (tick_always_refreshes (Date := Z) _ _ _ _ _ _ _ H); [reflexivity | exact Hin].
Defined.

Lemma time_display_witness :
  reachable (Date := Z) (fun f => f) (fun _ f => f) (js:"48.1") sample_widget /\
  display_ok sample_widget /\
  (w_destroyed sample_widget = false -> forall (d : Z) clock,
     let w' := handle (fun f => f) (fun _ f => f) sample_widget (EvTick d clock) in
     w_analog_repaints w' = (if w_analog_area sample_widget
                             then S (w_analog_repaints sample_widget)
                             else w_analog_repaints sample_widget) /\
     w_led_repaints w' = (if w_led_area sample_widget then S (w_led_repaints sample_widget)
                          else w_led_repaints sample_widget)).
Proof.
  assert (H : reachable (Date := Z) (fun f => f) (fun _ f => f) (js:"48.1") sample_widget)
    by apply reach_init.
  split; [exact H | apply (time_display (Date := Z) _ _ _ _ H)].
Defined.

Lemma shell_version_switch_witness :
  (0 <= 48)%Z /\ stops_decimal (js:".1") = true /\ ~ In 32%Z (js:".1") /\
  let w := init (Date := Z) (fun f => f) (fun _ f => f) (Z_to_jsstr 48 ++ js:".1" ++ [])
             analog_settings 400%Z 0%Z (js:" 10:25 ") false in
  w_box w = (if (48 <=? 48)%Z then OrientationVertical else VerticalFlag) /\
  w_seat w = (if (48 <=? 48)%Z then ContextBackendSeat else DefaultBackendSeat).
Proof.
  assert (Hsp : ~ In 32%Z (js:".1")) by (simpl; intuition discriminate).
  split; [lia | split; [reflexivity | split; [exact Hsp |]]].
  apply (shell_version_switch (Date := Z) (fun f => f) (fun _ f => f) 48 (js:".1") []);
    [lia | reflexivity | exact Hsp | left; reflexivity].
Defined.

End Widget.
