(* ===== verification/Screen.v ===== *)
(** How the widget and the painters meet: the [repaint] handlers that
    [_createAnalogClock] and [_createLedClock] connect to their drawing
    areas (ModifiedClock.js, lines 304-308 and 325-329).  A repaint
    reads the surface size and the Cairo context the host hands over,
    the colours from the settings and, for the LED ring, the
    [_currentTimeText] that [_updateClock] stored in the widget.  The
    theorem: in every reachable state, one repaint of the box runs
    exactly the painter of the area the settings chose (the LED one fed
    with the stored time text) and hands the Cairo context back as it
    got it. *)

From S2P Require Import Prelude Cairo SevenSegment JsBuiltins ClockFace Widget.
Import Cairo SevenSegment JsBuiltins ClockFace Widget.

Module Screen.

(** What the host provides when it repaints an area: the surface size
    ([area.get_surface_size()]), the wall clock's string and the local
    time of [new Date()] at that moment. *)
Record frame : Type := mk_frame {
  fr_width : Q;
  fr_height : Q;
  fr_clock : jsstr;
  fr_now : walltime }.

Section Repaint.
Context `{T : Trig}.

(** The handler of the area [c]: [_paintAnalogClock(cr, width, height)]
    or [_paintLedClock(cr, width, height)]; the labels have none. *)
Definition repaint (s : settings) (w : widget) (f : frame) (c : child) : list cmd :=
  match c with
  | AnalogArea _ =>
      paintAnalogClock (font_color (time_font s)) (font_color (hint_font s)) (fr_now f)
        (fr_width f) (fr_height f)
  | LedArea _ =>
      paintLedClock (font_color (time_font s)) (font_color (hint_font s))
        (w_current_time_text w) (fr_clock f) (fr_now f) (fr_width f) (fr_height f)
  | _ => []
  end.

(** One repaint of every child of the box, in order. *)
Definition repaint_all (s : settings) (w : widget) (f : frame) : list cmd :=
  flat_map (repaint s w f) (w_children w).

End Repaint.

(** ** Lemmas *)

Section RepaintLemmas.
Context `{T : Trig}.

Lemma repaint_frame (s : settings) (w : widget) (f : frame) (c : child) (st : cstate) :
  ok st = true ->
  let st' := run (repaint s w f c) st in
  ok st' = true /\ gs st' = gs st /\ saved st' = saved st.
Proof.
  intros Hok. destruct c; cbn [repaint]; try (repeat split; assumption);
    apply save_restore_bracket; try exact Hok; apply no_stack_balanced;
    lazymatch goal with
    | |- no_stack (analog_body _ _ _ _ _) = true => apply analog_body_no_stack
    | |- no_stack (led_body _ _ _ _ _ _ _) = true => apply led_body_no_stack
    end.
Qed.

End RepaintLemmas.

(** ** Theorems *)

(** The children of a reachable widget, repainted, give exactly the
    painter of the area that exists, fed with the text stored in any
    state [w0] of the widget. *)
Lemma repaint_areas `{T : Trig} {Date : Type} (translate : jsstr -> jsstr)
  (formatDate : Date -> jsstr -> jsstr) (package_version : jsstr) (w : widget) :
  reachable translate formatDate package_version w -> forall s f w0,
  flat_map (repaint s w0 f) (w_children w) =
  (if w_analog_area w then paintAnalogClock (font_color (time_font s)) (font_color (hint_font s))
                             (fr_now f) (fr_width f) (fr_height f) else []) ++
  (if w_led_area w then paintLedClock (font_color (time_font s)) (font_color (hint_font s))
                          (w_current_time_text w0) (fr_clock f) (fr_now f) (fr_width f)
                          (fr_height f) else []).
Proof.
  induction 1 as [st width d clock touch | w e _ IH]; intros s f w0.
  - destruct (init_fields translate formatDate package_version st width d clock touch)
      as (-> & _).
    destruct (init_areas translate formatDate package_version st width d clock touch)
      as [-> ->].
    rewrite !flat_map_app.
    destruct (_ && _)%bool; destruct (remove_date st), (remove_hint st);
      destruct (remove_time st); cbn -[paintAnalogClock paintLedClock str_eqb analog_style led_style];
      rewrite ?app_nil_r; try syn_refl;
      unfold time_child, createAnalogClock, createLedClock;
      destruct (str_eqb (clock_style st) analog_style), (str_eqb (clock_style st) led_style);
      cbn -[paintAnalogClock paintLedClock]; rewrite ?app_nil_r; syn_refl.
  - rewrite handle_children. destruct (handle_areas translate formatDate w e) as [-> ->].
    apply IH.
Qed.

(** C15: one repaint of the box paints exactly the clock the settings
    chose: for every reachable state, the handlers of its children issue
    the analog painter when the analog area exists, the LED painter fed
    with the widget's [_currentTimeText] when the LED area exists, and
    nothing for the labels; and running them hands the Cairo context
    back with its status good, its graphics state and save stack as
    they were. *)
Theorem repaint_all_paints `{T : Trig} {Date : Type} (translate : jsstr -> jsstr)
  (formatDate : Date -> jsstr -> jsstr) (package_version : jsstr) (s : settings)
  (w : widget) (f : frame) (st : cstate) :
  reachable translate formatDate package_version w -> ok st = true ->
  repaint_all s w f =
  (if w_analog_area w then paintAnalogClock (font_color (time_font s)) (font_color (hint_font s))
                             (fr_now f) (fr_width f) (fr_height f) else []) ++
  (if w_led_area w then paintLedClock (font_color (time_font s)) (font_color (hint_font s))
                          (w_current_time_text w) (fr_clock f) (fr_now f) (fr_width f)
                          (fr_height f) else []) /\
  (let st' := run (repaint_all s w f) st in
   ok st' = true /\ gs st' = gs st /\ saved st' = saved st).
Proof.
  intros Hr Hok. unfold repaint_all.
  split; [apply (repaint_areas translate formatDate package_version w Hr)|].
  generalize (w_children w) as cs. intros cs.
  revert st Hok. induction cs as [|c cs IH]; intros st Hok; [repeat split; assumption|].
  cbn [flat_map]. rewrite run_app.
  destruct (repaint_frame s w f c st Hok) as (H1 & H2 & H3).
  destruct (IH _ H1) as (H4 & H5 & H6). rewrite H5, H6, H2, H3. repeat split; assumption.
Qed.

(** ** Witnesses *)

Lemma repaint_all_paints_witness :
  let s := mk_settings [] [] (mk_font [] 0%Z DEFAULT DEFAULT DEFAULT)
             (mk_font [] 0%Z DEFAULT DEFAULT DEFAULT) (mk_font [] 0%Z DEFAULT DEFAULT DEFAULT)
             (mk_font [] 0%Z DEFAULT DEFAULT DEFAULT) led_style false [] false false false in
  let w := init (Date := Z) (fun f => f) (fun _ f => f) (js:"48.1") s 400%Z 0%Z
             (js:"10:25") false in
  let f := mk_frame 200 200 (js:"10:25") (mk_walltime 10 25 30) in
  reachable (Date := Z) (fun f => f) (fun _ f => f) (js:"48.1") w /\ ok init_state = true /\
  repaint_all (T := trig_bhaskara) s w f =
  (if w_analog_area w then paintAnalogClock (font_color (time_font s)) (font_color (hint_font s))
                             (fr_now f) (fr_width f) (fr_height f) else []) ++
  (if w_led_area w then paintLedClock (font_color (time_font s)) (font_color (hint_font s))
                          (w_current_time_text w) (fr_clock f) (fr_now f) (fr_width f)
                          (fr_height f) else []) /\
  (let st' := run (repaint_all (T := trig_bhaskara) s w f) init_state in
   ok st' = true /\ gs st' = gs init_state /\ saved st' = saved init_state).
Proof.
  intros s w f.
  assert (H : reachable (Date := Z) (fun f => f) (fun _ f => f) (js:"48.1") w) by apply reach_init.
  split; [exact H | split; [reflexivity |]].
  apply (repaint_all_paints (Date := Z) _ _ _ _ _ _ _ H). reflexivity.
Defined.

End Screen.
